(** * UART driver of the luna_d21 board: a shallow embedding and its properties

    Source: [firmware/src/boards/luna_d21/uart.c].

    The driver talks to one SERCOM instance (SERCOM1) in USART mode, to the
    pin multiplexer, to the clock subsystem and to the interrupt controller.
    The embedding below keeps the register block as a simulated register
    model: every C statement of the driver is a function on [machine], and
    every side-effecting access is appended to an event trace. *)

From Stdlib Require Import ZArith List Lia Bool.
From stdpp Require Import base gmap.
Import ListNotations.

Local Open Scope Z_scope.

(** ** Fixed-width unsigned arithmetic *)

Module Word.

(** Conversion to [uint32_t] / [unsigned long] (32 bits on the target). *)
Definition u32 (x : Z) : Z := x mod 2 ^ 32.

(** Conversion to [uint16_t]. *)
Definition u16 (x : Z) : Z := x mod 2 ^ 16.

(** Conversion to [uint8_t]. *)
Definition u8 (x : Z) : Z := x mod 2 ^ 8.

(** [x << n] on a 32-bit unsigned operand: the result is reduced modulo
    2^32.  For [n >= 32] the C standard leaves the shift undefined; the
    reduction gives 0 there, which is also what the target's [LSL]
    instruction and the compiler's constant folder produce. *)
Definition shl32 (x n : Z) : Z := u32 (Z.shiftl x n).

(** The other behaviour met in practice for an oversized shift: the count
    is taken modulo the width of the type. *)
Definition shl32_masked (x n : Z) : Z := u32 (Z.shiftl x (n mod 32)).

Definition mul32 (x y : Z) : Z := u32 (x * y).
Definition add32 (x y : Z) : Z := u32 (x + y).
Definition sub32 (x y : Z) : Z := u32 (x - y).

(** [reg.bit.F = 1] and [reg.bit.F = 0] on a one-bit field at position [i]. *)
Definition set_bit (x i : Z) : Z := Z.lor x (Z.shiftl 1 i).
Definition clear_bit (x i : Z) : Z := Z.ldiff x (Z.shiftl 1 i).

End Word.
Import Word.

(** ** The baud divisor (uart.c, lines 107-123) *)

Module Baud.

Section Constants.
(** [shl] is the meaning given to [UINT32_C(1) << n]. *)
Variable shl : Z -> Z -> Z.
(** [CONF_CPU_FREQUENCY], from peripheral_clk_config.h. *)
Variable CONF_CPU_FREQUENCY : Z.

Definition m1_with : Z := u32 (shl 1 32 / CONF_CPU_FREQUENCY).
Definition m2_with : Z := u32 (Z.land (shl 1 42 / CONF_CPU_FREQUENCY) 0x3FF).
Definition m3_with : Z := u32 (Z.land (shl 1 52 / CONF_CPU_FREQUENCY) 0x3FF).
Definition m4_with : Z := u32 (Z.land (shl 1 62 / CONF_CPU_FREQUENCY) 0x3FF).
End Constants.

Definition m1 := m1_with shl32.
Definition m2 := m2_with shl32.
Definition m3 := m3_with shl32.
Definition m4 := m4_with shl32.

(** Lines 118-122: the four nested multiply-and-shift steps, over given
    constants.  [baudrate] is an [unsigned long]. *)
Definition fold (c1 c2 c3 c4 : Z) (baudrate : Z) : Z :=
  let op4 := Z.shiftr (sub32 (mul32 baudrate c4) 1) 10 in
  let op3 := Z.shiftr (add32 (mul32 baudrate c3) op4) 10 in
  let op2 := Z.shiftr (add32 (mul32 baudrate c2) op3) 10 in
  let op1 := Z.shiftr (add32 (mul32 baudrate c1) op2) 12 in
  sub32 65535 op1.

Definition baud_with (shl : Z -> Z -> Z) (clk baudrate : Z) : Z :=
  fold (m1_with shl clk) (m2_with shl clk) (m3_with shl clk) (m4_with shl clk)
       (u32 baudrate).

(** The value of the local [baud] of [uart_init]. *)
Definition baud (CONF_CPU_FREQUENCY baudrate : Z) : Z :=
  baud_with shl32 CONF_CPU_FREQUENCY baudrate.

(** The independent reference of the specification:
    65535 - floor(65536 * 16 * target_baud / clock_hz). *)
Definition reference (clock_hz target_baud : Z) : Z :=
  65535 - (65536 * 16 * target_baud) / clock_hz.

(** The algorithm in the words of the specification (section 4.3): the
    four constants are the quotients of 2^32, 2^42, 2^52 and 2^62 by the
    clock, the last three masked to their low 10 bits; each step
    multiplies by a constant, adds the previous partial result and shifts
    right (by 10, the last one by 12).  The first step has no previous
    partial result; it is taken as 0 here. *)
Definition spec_m1 (clock_hz : Z) : Z := 2 ^ 32 / clock_hz.
Definition spec_m2 (clock_hz : Z) : Z := Z.land (2 ^ 42 / clock_hz) 0x3FF.
Definition spec_m3 (clock_hz : Z) : Z := Z.land (2 ^ 52 / clock_hz) 0x3FF.
Definition spec_m4 (clock_hz : Z) : Z := Z.land (2 ^ 62 / clock_hz) 0x3FF.

Definition spec_step (c prev sh target_baud : Z) : Z :=
  Z.shiftr (target_baud * c + prev) sh.

Definition spec_compute_baud_register (clock_hz target_baud : Z) : Z :=
  let p4 := spec_step (spec_m4 clock_hz) 0 10 target_baud in
  let p3 := spec_step (spec_m3 clock_hz) p4 10 target_baud in
  let p2 := spec_step (spec_m2 clock_hz) p3 10 target_baud in
  let op1 := spec_step (spec_m1 clock_hz) p2 12 target_baud in
  65535 - op1.

Definition representative_bauds : list Z :=
  [300; 9600; 19200; 38400; 57600; 115200; 230400].

Definition targeted_clocks : list Z := [48000000; 8000000].

End Baud.

(** ** The simulated register model *)

(** The SERCOM USART registers the driver touches. *)
Inductive reg := CTRLA | CTRLB | BAUD | INTENSET | INTFLAG | DATA.

Definition reg_eqb (a b : reg) : bool :=
  match a, b with
  | CTRLA, CTRLA | CTRLB, CTRLB | BAUD, BAUD
  | INTENSET, INTENSET | INTFLAG, INTFLAG | DATA, DATA => true
  | _, _ => false
  end.

(** Side-effecting accesses, in program order: calls to the collaborators
    (pin multiplexer, clock subsystem, interrupt controller, byte-received
    callback), register writes, and reads of DATA (which pop the receive
    buffer).  Reads of flag registers have no side effect and are not
    recorded. *)
Inductive event :=
| EvGpioSetPinFunction (pin : N) (function : Z)
| EvPmEnableBusClock
| EvGclkEnableChannel
| EvNvicEnableIRQ
| EvWrite (r : reg) (v : Z)
| EvReadData (v : Z)
| EvCallback (byte : Z).

(** Modelled from the spec: the device and HAL headers (sam.h, hal_gpio.h)
    are not part of the sources.  The positions below are those of the
    SAMD21 SERCOM USART register map for the fields that section 4.2 of the
    specification names; pins PA00 and PA01 are numbered 0 and 1, their
    SERCOM1 pads are on peripheral function D. *)
Module Hw.
Definition CTRLA_SWRST_Pos : Z := 0.
Definition CTRLA_ENABLE_Pos : Z := 1.
Definition SERCOM_USART_CTRLA_MODE_USART_INT_CLK : Z := Z.shiftl 1 2.
Definition SERCOM_USART_CTRLA_RUNSTDBY : Z := Z.shiftl 1 7.
Definition SERCOM_USART_CTRLA_SAMPR (v : Z) : Z := Z.shiftl (Z.land v 7) 13.
Definition SERCOM_USART_CTRLA_TXPO (v : Z) : Z := Z.shiftl (Z.land v 3) 16.
Definition SERCOM_USART_CTRLA_RXPO (v : Z) : Z := Z.shiftl (Z.land v 3) 20.
Definition SERCOM_USART_CTRLA_DORD : Z := Z.shiftl 1 30.
Definition SERCOM_USART_CTRLB_CHSIZE (v : Z) : Z := Z.land v 7.
Definition SERCOM_USART_CTRLB_TXEN : Z := Z.shiftl 1 16.
Definition SERCOM_USART_CTRLB_RXEN : Z := Z.shiftl 1 17.
Definition CTRLB_RXEN_Pos : Z := 17.
Definition INTFLAG_DRE_Pos : Z := 0.
Definition INTFLAG_RXC_Pos : Z := 2.
Definition SERCOM_USART_INTFLAG_DRE : Z := Z.shiftl 1 0.
Definition SERCOM_USART_INTENSET_RXC : Z := Z.shiftl 1 2.
Definition PIN_PA00 : N := 0%N.
Definition PIN_PA01 : N := 1%N.
Definition MUX_PA00D_SERCOM1_PAD0 : Z := 3.
Definition MUX_PA01D_SERCOM1_PAD1 : Z := 3.
Definition GPIO_PIN_FUNCTION_OFF : Z := 0xFFFFFFFF.
End Hw.
Import Hw.

(** The driver's global [uart_active], the pin multiplexer, the register
    block of SERCOM1 and the interrupt controller's enable bit for its line.
    The SYNCBUSY flags are countdowns: a flag reads 1 while its counter is
    not zero, and the hardware decrements the counters as time passes. *)
Record machine := Machine {
  uart_active : bool;
  pinmux : gmap N Z;
  regs : reg -> Z;
  tx_buffer : Z;
  sync_swrst : nat;
  sync_enable : nat;
  sync_ctrlb : nat;
  tx_pending : nat;
  hw_delay : nat;
  nvic_sercom1 : bool;
  trace : list event
}.

Definition set_uart_active (b : bool) (st : machine) : machine :=
  Machine b (pinmux st) (regs st) (tx_buffer st) (sync_swrst st) (sync_enable st)
          (sync_ctrlb st) (tx_pending st) (hw_delay st) (nvic_sercom1 st) (trace st).

Definition set_pinmux (m : gmap N Z) (st : machine) : machine :=
  Machine (uart_active st) m (regs st) (tx_buffer st) (sync_swrst st) (sync_enable st)
          (sync_ctrlb st) (tx_pending st) (hw_delay st) (nvic_sercom1 st) (trace st).

Definition set_regs (f : reg -> Z) (st : machine) : machine :=
  Machine (uart_active st) (pinmux st) f (tx_buffer st) (sync_swrst st) (sync_enable st)
          (sync_ctrlb st) (tx_pending st) (hw_delay st) (nvic_sercom1 st) (trace st).

Definition set_tx_buffer (v : Z) (st : machine) : machine :=
  Machine (uart_active st) (pinmux st) (regs st) v (sync_swrst st) (sync_enable st)
          (sync_ctrlb st) (tx_pending st) (hw_delay st) (nvic_sercom1 st) (trace st).

Definition set_sync (sw en cb : nat) (st : machine) : machine :=
  Machine (uart_active st) (pinmux st) (regs st) (tx_buffer st) sw en cb
          (tx_pending st) (hw_delay st) (nvic_sercom1 st) (trace st).

Definition set_tx_pending (n : nat) (st : machine) : machine :=
  Machine (uart_active st) (pinmux st) (regs st) (tx_buffer st) (sync_swrst st)
          (sync_enable st) (sync_ctrlb st) n (hw_delay st) (nvic_sercom1 st) (trace st).

Definition set_nvic_sercom1 (b : bool) (st : machine) : machine :=
  Machine (uart_active st) (pinmux st) (regs st) (tx_buffer st) (sync_swrst st)
          (sync_enable st) (sync_ctrlb st) (tx_pending st) (hw_delay st) b (trace st).

Definition log (e : event) (st : machine) : machine :=
  Machine (uart_active st) (pinmux st) (regs st) (tx_buffer st) (sync_swrst st)
          (sync_enable st) (sync_ctrlb st) (tx_pending st) (hw_delay st)
          (nvic_sercom1 st) (trace st ++ [e]).

Definition upd (r : reg) (v : Z) (f : reg -> Z) : reg -> Z :=
  fun r' => if reg_eqb r' r then v else f r'.

Definition set_reg (r : reg) (v : Z) (st : machine) : machine :=
  set_regs (upd r v (regs st)) st.

(** *** Register accesses as the hardware answers them

    The peripheral is hardware, not code of the driver: its reactions are
    modelled from what the specification and the comments of uart.c say
    about it (sections 4.2, 4.4 and 5). *)

Definition SYNCBUSY_SWRST (st : machine) : bool := negb (Nat.eqb (sync_swrst st) 0).
Definition SYNCBUSY_ENABLE (st : machine) : bool := negb (Nat.eqb (sync_enable st) 0).
Definition SYNCBUSY_CTRLB (st : machine) : bool := negb (Nat.eqb (sync_ctrlb st) 0).

Definition CTRLA_ENABLE (st : machine) : bool := Z.testbit (regs st CTRLA) CTRLA_ENABLE_Pos.
Definition INTFLAG_RXC (st : machine) : bool := Z.testbit (regs st INTFLAG) INTFLAG_RXC_Pos.
Definition INTENSET_RXC (st : machine) : bool := Z.testbit (regs st INTENSET) INTFLAG_RXC_Pos.

(** Modelled from the spec: a software reset restores the initial values
    of the block (all registers 0) and keeps SYNCBUSY.SWRST set while it is
    in progress (section 4.2, step 3). *)
Definition hw_reset (st : machine) : machine :=
  set_sync (hw_delay st) 0 0
    (set_tx_pending 0 (set_tx_buffer 0 (set_regs (fun _ => 0) st))).

(** Modelled from the spec: a write to the 32-bit CTRLA.  With SWRST set
    it starts a software reset; otherwise the value is stored, and a change
    of ENABLE starts its synchronisation (section 4.2, steps 1-3 and 10). *)
Definition write_CTRLA (v : Z) (st : machine) : machine :=
  let st := log (EvWrite CTRLA v) st in
  if Z.testbit v CTRLA_SWRST_Pos then hw_reset st
  else
    let changed := negb (Bool.eqb (Z.testbit v CTRLA_ENABLE_Pos) (CTRLA_ENABLE st)) in
    let st' := set_reg CTRLA (u32 v) st in
    if changed then set_sync (sync_swrst st') (hw_delay st') (sync_ctrlb st') st' else st'.

(** Modelled from the spec: a write to CTRLB takes time to be applied,
    SYNCBUSY.CTRLB being set meanwhile (section 4.2, step 8). *)
Definition write_CTRLB (v : Z) (st : machine) : machine :=
  let st := set_reg CTRLB (u32 v) (log (EvWrite CTRLB v) st) in
  set_sync (sync_swrst st) (sync_enable st) (hw_delay st) st.

(** Modelled from the spec: BAUD is a 16-bit register (section 4.3). *)
Definition write_BAUD (v : Z) (st : machine) : machine :=
  set_reg BAUD (u16 v) (log (EvWrite BAUD v) st).

(** Modelled from the spec: writing a 1 to a bit of INTENSET unmasks the
    corresponding interrupt source (section 4.2, step 9). *)
Definition write_INTENSET (v : Z) (st : machine) : machine :=
  let st := log (EvWrite INTENSET v) st in
  set_reg INTENSET (Z.lor (regs st INTENSET) (u8 v)) st.

(** Modelled from the spec: reading DATA returns the receive buffer, and
    the read itself clears the receive-complete condition (section 4.4). *)
Definition read_DATA (st : machine) : Z * machine :=
  let v := u16 (regs st DATA) in
  let st := log (EvReadData v) st in
  (v, set_reg INTFLAG (clear_bit (regs st INTFLAG) INTFLAG_RXC_Pos) st).

(** Modelled from the spec: writing DATA loads the transmit buffer,
    whatever it held, and data-register-empty stays clear until the hardware
    has taken the byte (section 4.4). *)
Definition write_DATA (v : Z) (st : machine) : machine :=
  let st := log (EvWrite DATA v) st in
  let st := set_tx_buffer (u16 v) st in
  let st := set_reg INTFLAG (clear_bit (regs st INTFLAG) INTFLAG_DRE_Pos) st in
  set_tx_pending (S (hw_delay st)) st.

(** *** The collaborators *)

(** Modelled from the spec: the pin-function mapper assigns a pin to a
    peripheral signal or resets it to unconfigured (section 6). *)
Definition gpio_set_pin_function (pin : N) (function : Z) (st : machine) : machine :=
  set_pinmux (<[pin := function]> (pinmux st)) (log (EvGpioSetPinFunction pin function) st).

(** Modelled from the spec: the two requests to the clock subsystem are
    fire-and-forget (section 6). *)
Definition _pm_enable_bus_clock (st : machine) : machine := log EvPmEnableBusClock st.
Definition _gclk_enable_channel (st : machine) : machine := log EvGclkEnableChannel st.

(** Modelled from the spec: the interrupt controller enables the line of
    the peripheral (section 6). *)
Definition NVIC_EnableIRQ (st : machine) : machine :=
  set_nvic_sercom1 true (log EvNvicEnableIRQ st).

(** Line 152 and its overrides: the byte-received callback is owned by the
    firmware (the weak default does nothing); the driver only calls it. *)
Definition uart_byte_received_cb (byte : Z) (st : machine) : machine :=
  log (EvCallback byte) st.

(** *** The hardware's own moves *)

(** ENABLE is set and its synchronisation is complete. *)
Definition fully_enabled (st : machine) : bool :=
  CTRLA_ENABLE st && Nat.eqb (sync_enable st) 0.

(** Modelled from the spec: one unit of time.  Pending synchronisations
    advance (every polled flag eventually clears), and the transmit buffer
    of an enabled peripheral empties. *)
Definition hw_tick (st : machine) : machine :=
  let st := set_sync (pred (sync_swrst st)) (pred (sync_enable st)) (pred (sync_ctrlb st)) st in
  let st := set_tx_pending (pred (tx_pending st)) st in
  if Nat.eqb (tx_pending st) 0 && fully_enabled st
  then set_reg INTFLAG (set_bit (regs st INTFLAG) INTFLAG_DRE_Pos) st
  else st.

(** Modelled from the spec: a character arrives on the line.  An enabled
    receiver stores it and raises receive-complete (section 4.4). *)
Definition hw_receive (v : Z) (st : machine) : machine :=
  if fully_enabled st && Z.testbit (regs st CTRLB) CTRLB_RXEN_Pos
  then set_reg INTFLAG (set_bit (regs st INTFLAG) INTFLAG_RXC_Pos) (set_reg DATA (u16 v) st)
  else st.

(** ** The driver *)

(** Lines 34-43. *)
Definition _uart_configure_pinmux (use_for_uart : bool) (st : machine) : machine :=
  if use_for_uart then
    gpio_set_pin_function PIN_PA01 MUX_PA01D_SERCOM1_PAD1
      (gpio_set_pin_function PIN_PA00 MUX_PA00D_SERCOM1_PAD0 st)
  else
    gpio_set_pin_function PIN_PA01 GPIO_PIN_FUNCTION_OFF
      (gpio_set_pin_function PIN_PA00 GPIO_PIN_FUNCTION_OFF st).

(** Lines 49-53. *)
Definition uart_configure_pinmux (st : machine) : machine :=
  set_uart_active true (_uart_configure_pinmux true st).

(** Lines 60-64. *)
Definition uart_release_pinmux (st : machine) : machine :=
  set_uart_active false (_uart_configure_pinmux false st).

(** The role of a pin in the multiplexer. *)
Definition pin_role (pin : N) (st : machine) : option Z := pinmux st !! pin.

(** Lines 158-168.  The [uint16_t] read from DATA is converted to the
    callback's [uint8_t] parameter. *)
Definition SERCOM1_Handler (st : machine) : machine :=
  if INTFLAG_RXC st then
    let '(byte, st1) := read_DATA st in
    uart_byte_received_cb (u8 byte) st1
  else st.

(** Lines 175-178. *)
Definition uart_ready_for_write (st : machine) : bool :=
  negb (Z.land (regs st INTFLAG) SERCOM_USART_INTFLAG_DRE =? 0).

(** Lines 187-190; the parameter is a [uint8_t]. *)
Definition uart_nonblocking_write (byte : Z) (st : machine) : machine :=
  write_DATA (u8 byte) st.

(** [while (cond);] : the condition is polled, and time passes between two
    polls.  [fuel] bounds the number of polls. *)
Fixpoint wait_while (cond : machine -> bool) (fuel : nat) (st : machine) : option machine :=
  if cond st then
    match fuel with
    | O => None
    | S fuel' => wait_while cond fuel' (hw_tick st)
    end
  else Some st.

(** Lines 199-203. *)
Definition uart_blocking_write (fuel : nat) (byte : Z) (st : machine) : option machine :=
  match wait_while (fun s => negb (uart_ready_for_write s)) fuel st with
  | Some st1 => Some (uart_nonblocking_write byte st1)
  | None => None
  end.

(** A statement of [uart_init] is either a straight-line statement or a
    polling loop with an empty body. *)
Inductive op :=
| OpDo (f : machine -> machine)
| OpWait (cond : machine -> bool).

(** [sercom->USART.CTRLA.bit.ENABLE = b]: read-modify-write of CTRLA. *)
Definition CTRLA_bit_ENABLE (b : bool) (st : machine) : machine :=
  write_CTRLA ((if b then set_bit else clear_bit) (regs st CTRLA) CTRLA_ENABLE_Pos) st.

(** [sercom->USART.CTRLA.bit.SWRST = 1]. *)
Definition CTRLA_bit_SWRST (st : machine) : machine :=
  write_CTRLA (set_bit (regs st CTRLA) CTRLA_SWRST_Pos) st.

(** The value of lines 99-105. *)
Definition CTRLA_usart : Z :=
  Z.lor SERCOM_USART_CTRLA_DORD
   (Z.lor (SERCOM_USART_CTRLA_TXPO 0)
    (Z.lor (SERCOM_USART_CTRLA_RXPO 1)
     (Z.lor (SERCOM_USART_CTRLA_SAMPR 0)
      (Z.lor SERCOM_USART_CTRLA_RUNSTDBY SERCOM_USART_CTRLA_MODE_USART_INT_CLK)))).

(** The value of lines 126-129. *)
Definition CTRLB_usart : Z :=
  Z.lor (SERCOM_USART_CTRLB_CHSIZE 0)
   (Z.lor SERCOM_USART_CTRLB_TXEN SERCOM_USART_CTRLB_RXEN).

Section Init.
Variable CONF_CPU_FREQUENCY : Z.
Variable configure_pinmux : bool.
Variable baudrate : Z.

(** Lines 75-87: disable, software reset, wait for both. *)
Definition reset_ops : list op :=
  [ OpWait SYNCBUSY_ENABLE;
    OpDo (CTRLA_bit_ENABLE false);
    OpWait SYNCBUSY_SWRST;
    OpDo CTRLA_bit_SWRST;
    OpWait SYNCBUSY_SWRST;
    OpWait (fun st => SYNCBUSY_SWRST st || SYNCBUSY_ENABLE st) ].

(** Lines 90-92.  The call is taken as one step: it touches neither the
    registers of the peripheral nor the interrupt controller. *)
Definition pinmux_ops : list op :=
  if configure_pinmux then [ OpDo uart_configure_pinmux ] else [].

(** Lines 95-133: clocks, mode, baud divisor, framing. *)
Definition config_ops : list op :=
  [ OpDo _pm_enable_bus_clock;
    OpDo _gclk_enable_channel;
    OpDo (write_CTRLA CTRLA_usart);
    OpDo (write_BAUD (Baud.baud CONF_CPU_FREQUENCY baudrate));
    OpDo (write_CTRLB CTRLB_usart);
    OpWait SYNCBUSY_CTRLB ].

(** Lines 137-144: receive interrupt, interrupt line, enable. *)
Definition arm_ops : list op :=
  [ OpDo (write_INTENSET SERCOM_USART_INTENSET_RXC);
    OpDo NVIC_EnableIRQ;
    OpDo (CTRLA_bit_ENABLE true);
    OpWait SYNCBUSY_ENABLE ].

(** Lines 71-146. *)
Definition uart_init_ops : list op :=
  reset_ops ++ pinmux_ops ++ config_ops ++ arm_ops.
End Init.

(** *** Sequential execution *)

Definition exec_op (fuel : nat) (o : op) (st : machine) : option machine :=
  match o with
  | OpDo f => Some (f st)
  | OpWait cond => wait_while cond fuel st
  end.

Fixpoint run (fuel : nat) (ops : list op) (st : machine) : option machine :=
  match ops with
  | [] => Some st
  | o :: ops' =>
      match exec_op fuel o st with
      | Some st' => run fuel ops' st'
      | None => None
      end
  end.

(** [uart_init(configure_pinmux, baudrate)], every polling loop being given
    [fuel] polls. *)
Definition uart_init (fuel : nat) (CONF_CPU_FREQUENCY : Z)
    (configure_pinmux : bool) (baudrate : Z) (st : machine) : option machine :=
  run fuel (uart_init_ops CONF_CPU_FREQUENCY configure_pinmux baudrate) st.

(** *** Execution with the hardware and the interrupt controller in between *)

Inductive env_action :=
| HwTick
| HwReceive (v : Z)
| Irq.

(** The SERCOM1 line is raised while an unmasked flag is set; the controller
    enters the handler only if the line is enabled. *)
Definition irq_pending (st : machine) : bool :=
  nvic_sercom1 st && negb (Z.land (regs st INTFLAG) (regs st INTENSET) =? 0).

Definition env_step (a : env_action) (st : machine) : machine :=
  match a with
  | HwTick => hw_tick st
  | HwReceive v => hw_receive v st
  | Irq => if irq_pending st then SERCOM1_Handler st else st
  end.

(** A configuration is the rest of the program and the machine.  Between
    any two statements, and while a loop polls, the environment may move. *)
Inductive step : list op * machine -> list op * machine -> Prop :=
| step_do f k st : step (OpDo f :: k, st) (k, f st)
| step_exit cond k st : cond st = false -> step (OpWait cond :: k, st) (k, st)
| step_env a k st : step (k, st) (k, env_step a st).

Definition steps := rtc step.

(** An interrupt taken in [st] hands a byte to the callback. *)
Definition dispatches (st : machine) : bool := irq_pending st && INTFLAG_RXC st.

(** *** The order of arming, as a monitor over the trace

    The monitor's state counts how far the arming went: 1 once the
    receive-complete interrupt is unmasked at the peripheral, 2 once the line
    is enabled at the controller, 3 once ENABLE is written as 1.  It rejects
    an enabling of the line before the unmasking and a setting of ENABLE
    before either; the [strict] monitor also rejects a callback before
    ENABLE is set. *)
Definition monitor_step (strict : bool) (q : nat) (e : event) : option nat :=
  match e with
  | EvWrite INTENSET v =>
      if Z.testbit v INTFLAG_RXC_Pos then Some (Nat.max q 1) else Some q
  | EvNvicEnableIRQ => if Nat.leb 1 q then Some (Nat.max q 2) else None
  | EvWrite CTRLA v =>
      if Z.testbit v CTRLA_ENABLE_Pos
      then (if Nat.leb 2 q then Some 3%nat else None)
      else Some q
  | EvCallback _ => if strict && negb (Nat.leb 3 q) then None else Some q
  | _ => Some q
  end.

Fixpoint monitor (strict : bool) (q : nat) (evs : list event) : option nat :=
  match evs with
  | [] => Some q
  | e :: evs' =>
      match monitor_step strict q e with
      | Some q' => monitor strict q' evs'
      | None => None
      end
  end.

(** *** Example machines *)

(** A machine out of reset; [delay] is the time a synchronisation takes. *)
Definition power_on (delay : nat) : machine :=
  Machine false ∅ (fun _ => 0) 0 0 0 0 0 delay false [].

(** A machine after [uart_init(true, 115200)] from reset. *)
Definition initialised : machine :=
  match uart_init 1 48000000 true 115200 (power_on 1) with
  | Some st => st
  | None => power_on 1
  end.

(** A machine with a byte in flight: 0x41 was written and the hardware has
    not taken it yet. *)
Definition tx_in_flight : machine := uart_nonblocking_write 0x41 initialised.

(** Moves of the environment, in order. *)
Definition env_run (acts : list env_action) (st : machine) : machine :=
  fold_left (fun s a => env_step a s) acts st.

Definition no_arrival (a : env_action) : bool :=
  match a with
  | HwReceive _ => false
  | _ => true
  end.

(** ** Assertions used in the proofs *)

(** *** A small program logic over interleaved executions *)

Definition env_stable (I : machine -> Prop) : Prop :=
  forall a st, I st -> I (env_step a st).

(** [hoare Safe I l J]: started in a state of [I], every state met while
    [l] runs (whatever the environment does) is [Safe], and a state in which
    [l] is finished satisfies [J]. *)
Definition hoare (Safe I : machine -> Prop) (l : list op) (J : machine -> Prop) : Prop :=
  forall st k st', I st -> steps (l, st) (k, st') -> Safe st' /\ (k = [] -> J st').

(** A statement that keeps [I]. *)
Definition keeps (I : machine -> Prop) (o : op) : Prop :=
  match o with
  | OpDo f => forall st, I st -> I (f st)
  | OpWait _ => True
  end.

Definition anything (st : machine) : Prop := True.

(** *** Arming

    [st0] is the machine on entry to [uart_init]; [cold] says that the
    SERCOM1 line is known to be disabled at the controller on entry. *)

(** The events since entry are accepted by the monitor, which is in [q]. *)
Definition Tr (st0 : machine) (cold : bool) (q : nat) (st : machine) : Prop :=
  exists evs, trace st = trace st0 ++ evs /\ monitor cold 0 evs = Some q.

(** After the software reset and before ENABLE is set: nothing received,
    and nothing can be. *)
Definition quiet (st : machine) : Prop :=
  INTFLAG_RXC st = false /\ CTRLA_ENABLE st = false /\
  Z.testbit (regs st CTRLA) CTRLA_SWRST_Pos = false.

(** After ENABLE is set: a received byte means the enabling is complete. *)
Definition live (st : machine) : Prop :=
  CTRLA_ENABLE st = true /\ (INTFLAG_RXC st = true -> sync_enable st = 0%nat).

Definition rx_safe (st0 : machine) (cold : bool) (st : machine) : Prop :=
  (exists q, Tr st0 cold q st) /\
  (cold = true -> dispatches st = true -> fully_enabled st = true).

Definition at_entry (st0 : machine) (cold : bool) (st : machine) : Prop :=
  (cold = true -> nvic_sercom1 st = false) /\ Tr st0 cold 0 st.

Definition disabled (st0 : machine) (cold : bool) (st : machine) : Prop :=
  (cold = true -> nvic_sercom1 st = false) /\ CTRLA_ENABLE st = false /\
  Tr st0 cold 0 st.

Definition reset_done (st0 : machine) (cold : bool) (q : nat) (st : machine) : Prop :=
  quiet st /\ Tr st0 cold q st.

Definition enabled (st0 : machine) (cold : bool) (st : machine) : Prop :=
  live st /\ Tr st0 cold 3 st.

(** *** Termination *)

(** Every pending synchronisation, and the delay of a new one, is at most
    [n] units of time. *)
Definition within (n : nat) (st : machine) : Prop :=
  (hw_delay st <= n /\ sync_swrst st <= n /\ sync_enable st <= n /\ sync_ctrlb st <= n)%nat.

Definition busiest (st : machine) : nat :=
  Nat.max (sync_swrst st) (Nat.max (sync_enable st) (sync_ctrlb st)).

(** A polled condition that is true only while a synchronisation is
    pending. *)
Definition sync_cond (cond : machine -> bool) : Prop :=
  forall st, cond st = true -> (0 < busiest st)%nat.

Definition terminating (n : nat) (o : op) : Prop :=
  match o with
  | OpDo f => forall st, within n st -> within n (f st)
  | OpWait cond => sync_cond cond
  end.

(** *** Registers after the configuration steps *)

Definition mode_set (st : machine) : Prop := regs st CTRLA = u32 CTRLA_usart.

Definition baud_set (clk baudrate : Z) (st : machine) : Prop :=
  mode_set st /\ regs st BAUD = u16 (Baud.baud clk baudrate).

Definition rx_unmasked (clk baudrate : Z) (st : machine) : Prop :=
  baud_set clk baudrate st /\ INTENSET_RXC st = true.

Definition up (clk baudrate : Z) (st : machine) : Prop :=
  CTRLA_ENABLE st = true /\ INTENSET_RXC st = true /\
  regs st BAUD = u16 (Baud.baud clk baudrate).

Definition active_is (a : bool) (st : machine) : Prop := uart_active st = a.

(** ** Further assertions *)

(** The machine after [k] units of time with nothing else happening. *)
Fixpoint ticks (k : nat) (st : machine) : machine :=
  match k with
  | O => st
  | S k' => ticks k' (hw_tick st)
  end.

(** Both pins are routed to their SERCOM1 pads. *)
Definition pins_attached (st : machine) : bool :=
  bool_decide (pin_role PIN_PA00 st = Some MUX_PA00D_SERCOM1_PAD0) &&
  bool_decide (pin_role PIN_PA01 st = Some MUX_PA01D_SERCOM1_PAD1).

(** Both pins are back to the unconfigured role. *)
Definition pins_released (st : machine) : bool :=
  bool_decide (pin_role PIN_PA00 st = Some GPIO_PIN_FUNCTION_OFF) &&
  bool_decide (pin_role PIN_PA01 st = Some GPIO_PIN_FUNCTION_OFF).

(** The Active flag says what the pin multiplexer holds. *)
Definition flag_tracks_pins (st : machine) : Prop :=
  uart_active st = pins_attached st.

(** Data-register-empty is only shown once the hardware has taken the byte
    written before. *)
Definition tx_sound (st : machine) : Prop :=
  uart_ready_for_write st = true -> tx_pending st = 0%nat.

(** The receive path is armed end to end. *)
Definition rx_ready (st : machine) : Prop :=
  fully_enabled st = true /\ Z.testbit (regs st CTRLB) CTRLB_RXEN_Pos = true /\
  nvic_sercom1 st = true /\ INTENSET_RXC st = true.

(** Characters arriving one after the other, each served by the interrupt
    before the next. *)
Definition arrivals (vs : list Z) : list env_action :=
  flat_map (fun v => [HwReceive v; Irq]) vs.

Definition deliveries (vs : list Z) : list event :=
  flat_map (fun v => [EvReadData (u16 v); EvCallback (u8 v)]) vs.

(** The events of the main program, as opposed to those of the handler. *)
Definition is_driver_access (e : event) : bool :=
  match e with
  | EvReadData _ | EvCallback _ => false
  | _ => true
  end.

Definition own (evs : list event) : list event := List.filter is_driver_access evs.

(** Lines 75-144 as a list of accesses; [ctrla0] is what CTRLA holds on
    entry. *)
Definition uart_init_accesses (clk : Z) (cfg : bool) (baudrate : Z) (ctrla0 : Z) :
    list event :=
  let v1 := clear_bit ctrla0 CTRLA_ENABLE_Pos in
  let c1 := if Z.testbit v1 CTRLA_SWRST_Pos then 0 else u32 v1 in
  [EvWrite CTRLA v1; EvWrite CTRLA (set_bit c1 CTRLA_SWRST_Pos)] ++
  (if cfg then [EvGpioSetPinFunction PIN_PA00 MUX_PA00D_SERCOM1_PAD0;
                EvGpioSetPinFunction PIN_PA01 MUX_PA01D_SERCOM1_PAD1]
   else []) ++
  [EvPmEnableBusClock; EvGclkEnableChannel;
   EvWrite CTRLA CTRLA_usart;
   EvWrite BAUD (Baud.baud clk baudrate);
   EvWrite CTRLB CTRLB_usart;
   EvWrite INTENSET SERCOM_USART_INTENSET_RXC;
   EvNvicEnableIRQ;
   EvWrite CTRLA (set_bit (u32 CTRLA_usart) CTRLA_ENABLE_Pos)].

(** The peripheral is disabled and neither a reset nor an enabling is in
    progress: its configuration registers can be written. *)
Definition configurable (st : machine) : Prop :=
  CTRLA_ENABLE st = false /\ SYNCBUSY_SWRST st = false /\ SYNCBUSY_ENABLE st = false.

(** What [uart_init] leaves behind. *)
Definition operational (st : machine) : Prop :=
  regs st CTRLA = set_bit CTRLA_usart CTRLA_ENABLE_Pos /\
  regs st CTRLB = CTRLB_usart /\
  regs st INTENSET = SERCOM_USART_INTENSET_RXC /\
  nvic_sercom1 st = true /\
  SYNCBUSY_SWRST st = false /\ SYNCBUSY_ENABLE st = false /\ SYNCBUSY_CTRLB st = false /\
  tx_sound st.

(** The registers between the software reset and the end of [uart_init]:
    [sw], [en], [cb] and [nv] say which of the synchronisations are known
    to be over and whether the line is known to be enabled. *)
Definition stage (a b i : Z) (sw en cb nv : bool) (st : machine) : Prop :=
  regs st CTRLA = a /\ regs st CTRLB = b /\ regs st INTENSET = i /\
  (sw = true -> sync_swrst st = 0%nat) /\
  (en = true -> sync_enable st = 0%nat) /\
  (cb = true -> sync_ctrlb st = 0%nat) /\
  (nv = true -> nvic_sercom1 st = true) /\
  tx_sound st.

(** The accesses since the machine [st0], and what CTRLA holds. *)
Definition logged (st0 : machine) (T : list event) (c : Z) (st : machine) : Prop :=
  (exists evs, trace st = trace st0 ++ evs /\ own evs = T) /\ regs st CTRLA = c.

(** A statement that leaves the Active flag and the pin multiplexer as they
    are. *)
Definition spares_pins (o : op) : Prop :=
  match o with
  | OpDo f => forall st, uart_active (f st) = uart_active st /\ pinmux (f st) = pinmux st
  | OpWait _ => True
  end.

(** ENABLE and SWRST read 0 and no synchronisation of either is pending. *)
Definition unlocked (st : machine) : Prop :=
  CTRLA_ENABLE st = false /\ Z.testbit (regs st CTRLA) CTRLA_SWRST_Pos = false /\
  sync_swrst st = 0%nat /\ sync_enable st = 0%nat.

(** The accesses a statement added to the log. *)
Definition added (st st' : machine) : list event :=
  skipn (length (trace st)) (trace st').

(** An execution together with the accesses its statements made, in order.
    The moves are those of [step]; what is logged while the environment
    moves (by the handler) is not counted. *)
Inductive performs : list op * machine -> list event -> list op * machine -> Prop :=
| perf_refl c : performs c [] c
| perf_do f k st l c :
    performs (k, f st) l c -> performs (OpDo f :: k, st) (added st (f st) ++ l) c
| perf_exit cond k st l c :
    cond st = false -> performs (k, st) l c -> performs (OpWait cond :: k, st) l c
| perf_env a k st l c :
    performs (k, env_step a st) l c -> performs (k, st) l c.

(** A statement that appends to the log, and nothing the handler would. *)
Definition driver_only (o : op) : Prop :=
  match o with
  | OpDo f => forall st, exists E, trace (f st) = trace st ++ E /\ own E = E
  | OpWait _ => True
  end.

(** An access to DATA or a call of the callback. *)
Definition touches_data (e : event) : bool :=
  match e with
  | EvReadData _ | EvCallback _ | EvWrite DATA _ => true
  | _ => false
  end.

(** ** Proof tools *)

Arguments u32 : simpl never.
Arguments u16 : simpl never.
Arguments u8 : simpl never.
Arguments set_bit : simpl never.
Arguments clear_bit : simpl never.

(** Unfolds the record updates and nothing of the arithmetic. *)
Ltac msimpl :=
  cbn [uart_active pinmux regs tx_buffer sync_swrst sync_enable sync_ctrlb tx_pending
       hw_delay nvic_sercom1 trace set_uart_active set_pinmux set_regs set_tx_buffer
       set_sync set_tx_pending set_nvic_sercom1 log set_reg upd reg_eqb hw_reset
       andb orb negb fst snd].

(** Unfolds the driver's straight-line statements. *)
Ltac munfold :=
  unfold uart_release_pinmux, uart_configure_pinmux, _uart_configure_pinmux,
    gpio_set_pin_function, _pm_enable_bus_clock, _gclk_enable_channel, write_BAUD,
    write_CTRLB, write_INTENSET, NVIC_EnableIRQ, uart_byte_received_cb,
    uart_nonblocking_write, write_DATA.

(** * Properties *)

(** ** Bits *)

Lemma testbit_set_bit x i j :
  0 <= i -> Z.testbit (set_bit x i) j = Z.testbit x j || (i =? j).
Proof.
  intros Hi. unfold set_bit.
  rewrite Z.lor_spec, Z.shiftl_1_l, Z.pow2_bits_eqb by assumption. reflexivity.
Qed.

Lemma testbit_clear_bit x i j :
  0 <= i -> Z.testbit (clear_bit x i) j = Z.testbit x j && negb (i =? j).
Proof.
  intros Hi. unfold clear_bit.
  rewrite Z.ldiff_spec, Z.shiftl_1_l, Z.pow2_bits_eqb by assumption. reflexivity.
Qed.

Lemma testbit_u32 x i : 0 <= i < 32 -> Z.testbit (u32 x) i = Z.testbit x i.
Proof. intros Hi. unfold u32. apply Z.mod_pow2_bits_low. lia. Qed.

Lemma u16_small x : 0 <= x < 65536 -> u16 x = x.
Proof. intros H. unfold u16. apply Z.mod_small. lia. Qed.

Lemma u8_u16 x : u8 (u16 x) = u8 x.
Proof.
  unfold u8, u16. apply Z.mod_mod_divide. exists (2 ^ 8). reflexivity.
Qed.

Lemma u8_land x : u8 x = Z.land x 0xFF.
Proof. unfold u8. symmetry. apply (Z.land_ones x 8). lia. Qed.

(** ** Executions *)

Lemma steps_refl c : steps c c.
Proof. apply rtc_refl. Qed.

Lemma steps_env a k st k' st' :
  steps (k, env_step a st) (k', st') -> steps (k, st) (k', st').
Proof. intros H. eapply rtc_l; [apply step_env | exact H]. Qed.

(** From the empty program only the environment moves. *)
Lemma steps_nil_inv (I : machine -> Prop) :
  (forall a st, I st -> I (env_step a st)) ->
  forall c c', steps c c' -> fst c = [] -> I (snd c) -> fst c' = [] /\ I (snd c').
Proof.
  intros Henv c c' H. induction H as [c | c1 c2 c3 H12 _ IH]; intros Hk HI.
  - split; assumption.
  - destruct H12 as [f k st | cond k st Hc | a k st]; simpl in *; try discriminate.
    apply IH; simpl; auto.
Qed.

(** An execution of [l1 ++ l2] is either still inside [l1], or it finished
    [l1] and continues in [l2]. *)
Lemma steps_app l2 : forall c c', steps c c' ->
  forall l1, fst c = l1 ++ l2 ->
  (exists l1', fst c' = l1' ++ l2 /\ steps (l1, snd c) (l1', snd c')) \/
  (exists s1, steps (l1, snd c) ([], s1) /\ steps (l2, s1) c').
Proof.
  intros c c' H. induction H as [c | c1 c2 c3 H12 H23 IH]; intros l1 Hl.
  - left. exists l1. split; [assumption | apply steps_refl].
  - destruct l1 as [| o l1t].
    + right. exists (snd c1). split; [apply steps_refl |].
      destruct c1 as [k1 s1]. simpl in *. subst k1.
      eapply rtc_l; eassumption.
    + destruct H12 as [f k st | cond k st Hc | a k st]; simpl in *.
      * injection Hl as Ho Hk. subst o k.
        destruct (IH l1t eq_refl) as [(l1' & E & S) | (s1 & S1 & S2)].
        -- left. exists l1'. split; [exact E |]. eapply rtc_l; [apply step_do | exact S].
        -- right. exists s1. split; [| exact S2]. eapply rtc_l; [apply step_do | exact S1].
      * injection Hl as Ho Hk. subst o k.
        destruct (IH l1t eq_refl) as [(l1' & E & S) | (s1 & S1 & S2)].
        -- left. exists l1'. split; [exact E |].
           eapply rtc_l; [apply step_exit; exact Hc | exact S].
        -- right. exists s1. split; [| exact S2].
           eapply rtc_l; [apply step_exit; exact Hc | exact S1].
      * destruct (IH (o :: l1t) Hl) as [(l1' & E & S) | (s1 & S1 & S2)].
        -- left. exists l1'. split; [exact E |]. eapply steps_env; exact S.
        -- right. exists s1. split; [| exact S2]. eapply steps_env; exact S1.
Qed.

(** ** The program logic *)

Section Hoare.
Variable Safe : machine -> Prop.

Lemma hoare_nil I :
  env_stable I -> (forall st, I st -> Safe st) -> hoare Safe I [] I.
Proof.
  intros Henv Hsafe st k st' HI H.
  destruct (steps_nil_inv I Henv _ _ H eq_refl HI) as [_ HI']. simpl in HI'.
  split; auto.
Qed.

Lemma hoare_seq I J K l1 l2 :
  hoare Safe I l1 J -> hoare Safe J l2 K -> hoare Safe I (l1 ++ l2) K.
Proof.
  intros H1 H2 st k st' HI H.
  destruct (steps_app l2 _ _ H l1 eq_refl) as [(l1' & E & S) | (s1 & S1 & S2)];
    simpl in *.
  - destruct (H1 _ _ _ HI S) as [Hs HJ]. split; [exact Hs |].
    intros ->. symmetry in E. apply app_eq_nil in E as [-> ->].
    apply (H2 st' [] st' (HJ eq_refl) (steps_refl _)). reflexivity.
  - destruct (H1 _ _ _ HI S1) as [_ HJ].
    apply (H2 s1 k st' (HJ eq_refl) S2).
Qed.

Lemma hoare_do I J f :
  env_stable I -> env_stable J ->
  (forall st, I st -> Safe st) -> (forall st, J st -> Safe st) ->
  (forall st, I st -> J (f st)) ->
  hoare Safe I [OpDo f] J.
Proof.
  intros EI EJ SI SJ Hf.
  enough (G : forall c c', steps c c' -> forall st, c = ([OpDo f], st) -> I st ->
              Safe (snd c') /\ (fst c' = [] -> J (snd c'))).
  { intros st k st' HI H. apply (G _ _ H st eq_refl HI). }
  intros c c' H. induction H as [c | c1 c2 c3 H12 H23 IH]; intros st Ec HI.
  - subst c. simpl. split; [auto | discriminate].
  - subst c1. inversion H12; subst.
    + assert (HJ : J (f st)) by auto.
      destruct (steps_nil_inv J EJ _ _ H23 eq_refl HJ) as [Hk HJ']. split; auto.
    + apply (IH (env_step a st) eq_refl); auto.
Qed.

Lemma hoare_wait I cond :
  env_stable I -> (forall st, I st -> Safe st) -> hoare Safe I [OpWait cond] I.
Proof.
  intros EI SI.
  enough (G : forall c c', steps c c' -> forall st, c = ([OpWait cond], st) -> I st ->
              Safe (snd c') /\ (fst c' = [] -> I (snd c'))).
  { intros st k st' HI H. apply (G _ _ H st eq_refl HI). }
  intros c c' H. induction H as [c | c1 c2 c3 H12 H23 IH]; intros st Ec HI.
  - subst c. simpl. split; [auto | discriminate].
  - subst c1. inversion H12; subst.
    + destruct (steps_nil_inv I EI _ _ H23 eq_refl HI) as [Hk HI']. split; auto.
    + apply (IH (env_step a st) eq_refl); auto.
Qed.

Lemma hoare_keeps I l :
  env_stable I -> (forall st, I st -> Safe st) -> Forall (keeps I) l ->
  hoare Safe I l I.
Proof.
  intros EI SI Hl. induction Hl as [| o l Ho _ IH].
  - apply hoare_nil; assumption.
  - change (o :: l) with ([o] ++ l). apply hoare_seq with (J := I); [| exact IH].
    destruct o as [f | cond]; [apply hoare_do | apply hoare_wait]; auto.
Qed.
End Hoare.

(** The sequential run is one of the interleaved executions: the
    environment only lets time pass, inside the polling loops. *)
Lemma wait_while_steps cond fuel : forall k st st',
  wait_while cond fuel st = Some st' -> steps (OpWait cond :: k, st) (k, st').
Proof.
  induction fuel as [| fuel IH]; intros k st st' H; simpl in H.
  - destruct (cond st) eqn:Hc; [discriminate |]. injection H as <-.
    eapply rtc_l; [apply step_exit; exact Hc | apply steps_refl].
  - destruct (cond st) eqn:Hc.
    + apply (steps_env HwTick). apply IH. exact H.
    + injection H as <-. eapply rtc_l; [apply step_exit; exact Hc | apply steps_refl].
Qed.

Lemma run_steps fuel ops : forall st st',
  run fuel ops st = Some st' -> steps (ops, st) ([], st').
Proof.
  induction ops as [| o ops IH]; intros st st' H; simpl in H.
  - injection H as <-. apply steps_refl.
  - destruct (exec_op fuel o st) as [st1 |] eqn:E; [| discriminate].
    apply rtc_trans with (y := (ops, st1)); [| apply IH; exact H].
    destruct o as [f | cond]; simpl in E.
    + injection E as <-. eapply rtc_l; [apply step_do | apply steps_refl].
    + apply wait_while_steps with (fuel := fuel). exact E.
Qed.

Lemma uart_init_steps fuel clk cfg baudrate st st' :
  uart_init fuel clk cfg baudrate st = Some st' ->
  steps (uart_init_ops clk cfg baudrate, st) ([], st').
Proof. unfold uart_init. apply run_steps. Qed.

(** ** What each move changes *)

Lemma monitor_app strict l1 : forall q l2,
  monitor strict q (l1 ++ l2) =
  match monitor strict q l1 with Some q' => monitor strict q' l2 | None => None end.
Proof.
  induction l1 as [| e l1 IH]; intros q l2; simpl; [reflexivity |].
  destruct (monitor_step strict q e); [apply IH | reflexivity].
Qed.

Lemma monitor_strict_loose evs : forall q q',
  monitor true q evs = Some q' -> monitor false q evs = Some q'.
Proof.
  induction evs as [| e evs IH]; intros q q' H; simpl in *; [exact H |].
  destruct (monitor_step true q e) as [q1 |] eqn:E; [| discriminate].
  assert (E' : monitor_step false q e = Some q1).
  { destruct e; try exact E. cbn [monitor_step andb] in *.
    destruct (negb (Nat.leb 3 q)); [discriminate | exact E]. }
  rewrite E'. apply IH. exact H.
Qed.

Lemma hw_tick_frame st :
  trace (hw_tick st) = trace st /\ nvic_sercom1 (hw_tick st) = nvic_sercom1 st /\
  uart_active (hw_tick st) = uart_active st /\ pinmux (hw_tick st) = pinmux st /\
  hw_delay (hw_tick st) = hw_delay st /\
  (forall r, r <> INTFLAG -> regs (hw_tick st) r = regs st r) /\
  INTFLAG_RXC (hw_tick st) = INTFLAG_RXC st /\
  sync_swrst (hw_tick st) = pred (sync_swrst st) /\
  sync_enable (hw_tick st) = pred (sync_enable st) /\
  sync_ctrlb (hw_tick st) = pred (sync_ctrlb st).
Proof.
  unfold hw_tick, INTFLAG_RXC.
  destruct (_ && _); msimpl; repeat split; try reflexivity.
  - intros r Hr. destruct r; msimpl; congruence.
  - msimpl. rewrite testbit_set_bit by (unfold INTFLAG_DRE_Pos; lia).
    apply orb_false_r.
Qed.

Lemma hw_receive_frame v st :
  trace (hw_receive v st) = trace st /\
  nvic_sercom1 (hw_receive v st) = nvic_sercom1 st /\
  uart_active (hw_receive v st) = uart_active st /\
  pinmux (hw_receive v st) = pinmux st /\
  hw_delay (hw_receive v st) = hw_delay st /\
  (forall r, r <> INTFLAG -> r <> DATA -> regs (hw_receive v st) r = regs st r) /\
  sync_swrst (hw_receive v st) = sync_swrst st /\
  sync_enable (hw_receive v st) = sync_enable st /\
  sync_ctrlb (hw_receive v st) = sync_ctrlb st /\
  (fully_enabled st = false -> hw_receive v st = st).
Proof.
  unfold hw_receive.
  destruct (fully_enabled st) eqn:Hf; msimpl;
    [destruct (Z.testbit _ _); msimpl |]; repeat split; try reflexivity; try discriminate.
  intros r H1 H2. destruct r; msimpl; congruence.
Qed.

Lemma SERCOM1_Handler_idle st :
  INTFLAG_RXC st = false -> SERCOM1_Handler st = st.
Proof. intros H. unfold SERCOM1_Handler. rewrite H. reflexivity. Qed.

Lemma SERCOM1_Handler_serves st :
  INTFLAG_RXC st = true ->
  trace (SERCOM1_Handler st) =
    trace st ++ [EvReadData (u16 (regs st DATA)); EvCallback (u8 (regs st DATA))] /\
  INTFLAG_RXC (SERCOM1_Handler st) = false /\
  nvic_sercom1 (SERCOM1_Handler st) = nvic_sercom1 st /\
  uart_active (SERCOM1_Handler st) = uart_active st /\
  pinmux (SERCOM1_Handler st) = pinmux st /\
  hw_delay (SERCOM1_Handler st) = hw_delay st /\
  (forall r, r <> INTFLAG -> regs (SERCOM1_Handler st) r = regs st r) /\
  sync_swrst (SERCOM1_Handler st) = sync_swrst st /\
  sync_enable (SERCOM1_Handler st) = sync_enable st /\
  sync_ctrlb (SERCOM1_Handler st) = sync_ctrlb st.
Proof.
  intros H. unfold SERCOM1_Handler. rewrite H.
  unfold INTFLAG_RXC, read_DATA, uart_byte_received_cb. msimpl.
  repeat split; try reflexivity.
  - rewrite <- app_assoc, u8_u16. reflexivity.
  - msimpl. rewrite testbit_clear_bit by (unfold INTFLAG_RXC_Pos; lia).
    rewrite Z.eqb_refl. apply andb_false_r.
  - intros r Hr. destruct r; msimpl; congruence.
Qed.

(** What a write to CTRLA leaves behind. *)
Lemma write_CTRLA_effect v st :
  trace (write_CTRLA v st) = trace st ++ [EvWrite CTRLA v] /\
  nvic_sercom1 (write_CTRLA v st) = nvic_sercom1 st /\
  uart_active (write_CTRLA v st) = uart_active st /\
  pinmux (write_CTRLA v st) = pinmux st /\
  hw_delay (write_CTRLA v st) = hw_delay st /\
  (Z.testbit v CTRLA_SWRST_Pos = true -> forall r, regs (write_CTRLA v st) r = 0) /\
  (Z.testbit v CTRLA_SWRST_Pos = false ->
     regs (write_CTRLA v st) CTRLA = u32 v /\
     (forall r, r <> CTRLA -> regs (write_CTRLA v st) r = regs st r) /\
     (Z.testbit v CTRLA_ENABLE_Pos = negb (CTRLA_ENABLE st) ->
        sync_enable (write_CTRLA v st) = hw_delay st)).
Proof.
  unfold write_CTRLA, CTRLA_ENABLE.
  destruct (Z.testbit v CTRLA_SWRST_Pos) eqn:Hs; msimpl.
  - repeat split; try reflexivity; discriminate.
  - destruct (Bool.eqb _ _) eqn:Hc; msimpl; repeat split; try reflexivity; try discriminate.
    + intros r Hr. destruct r; msimpl; congruence.
    + intros He. rewrite He in Hc. destruct (Z.testbit (regs st CTRLA) _); discriminate.
    + intros r Hr. destruct r; msimpl; congruence.
Qed.

(** ** Arming order of [uart_init] *)

Section Arming.
Variable st0 : machine.
Variable cold : bool.

Lemma Tr_same q st st' :
  trace st' = trace st -> Tr st0 cold q st -> Tr st0 cold q st'.
Proof. intros E (evs & H1 & H2). exists evs. rewrite E. auto. Qed.

Lemma Tr_logs q q' evs st st' :
  trace st' = trace st ++ evs -> monitor cold q evs = Some q' ->
  Tr st0 cold q st -> Tr st0 cold q' st'.
Proof.
  intros E Hm (evs0 & H1 & H2). exists (evs0 ++ evs). split.
  - rewrite E, H1, app_assoc. reflexivity.
  - rewrite monitor_app, H2. exact Hm.
Qed.

Lemma Tr_log q q' e st st' :
  trace st' = trace st ++ [e] -> monitor_step cold q e = Some q' ->
  Tr st0 cold q st -> Tr st0 cold q' st'.
Proof.
  intros E Hm. apply (Tr_logs q q' [e]); [exact E |].
  cbn [monitor]. rewrite Hm. reflexivity.
Qed.

(** The environment writes neither CTRLA nor the controller's enable bit,
    and adds events only by serving a pending byte through an enabled
    line. *)
Lemma env_effect a st :
  nvic_sercom1 (env_step a st) = nvic_sercom1 st /\
  regs (env_step a st) CTRLA = regs st CTRLA /\
  (trace (env_step a st) = trace st \/
   nvic_sercom1 st = true /\ INTFLAG_RXC st = true /\
   trace (env_step a st) =
     trace st ++ [EvReadData (u16 (regs st DATA)); EvCallback (u8 (regs st DATA))]).
Proof.
  destruct a as [| v |]; simpl.
  - destruct (hw_tick_frame st) as (E1 & E2 & _ & _ & _ & E3 & _).
    rewrite E2, E3 by discriminate. auto.
  - destruct (hw_receive_frame v st) as (E1 & E2 & _ & _ & _ & E3 & _).
    rewrite E2, E3 by discriminate. auto.
  - destruct (irq_pending st) eqn:Hp; [| auto].
    unfold irq_pending in Hp. apply andb_prop in Hp as [Hn _].
    destruct (INTFLAG_RXC st) eqn:Hr.
    + destruct (SERCOM1_Handler_serves st Hr) as (E1 & _ & E2 & _ & _ & _ & E3 & _).
      rewrite E2, E3 by discriminate. auto 6.
    + rewrite SERCOM1_Handler_idle by assumption. auto.
Qed.

(** Before the reset: a cold line lets nothing through, and a warm one is
    not watched for callbacks. *)
Lemma env_Tr_before q a st :
  (cold = true -> nvic_sercom1 st = false) -> Tr st0 cold q st ->
  Tr st0 cold q (env_step a st).
Proof.
  intros Hc HT. destruct (env_effect a st) as (_ & _ & [E | (Hn & _ & E)]).
  - apply (Tr_same q st); assumption.
  - apply (Tr_logs q q _ st _ E); [| exact HT].
    destruct cold; [rewrite Hc in Hn by reflexivity; discriminate | reflexivity].
Qed.

Lemma quiet_not_enabled st : quiet st -> fully_enabled st = false.
Proof. intros (_ & H & _). unfold fully_enabled. rewrite H. reflexivity. Qed.

Lemma env_quiet a st :
  quiet st -> quiet (env_step a st) /\ trace (env_step a st) = trace st.
Proof.
  intros Hq. destruct a as [| v |]; simpl.
  - destruct (hw_tick_frame st) as (E1 & _ & _ & _ & _ & E3 & E4 & _).
    destruct Hq as (Q1 & Q2 & Q3). unfold quiet, CTRLA_ENABLE in *.
    rewrite E1, E4, E3 by discriminate. auto.
  - destruct (hw_receive_frame v st) as (_ & _ & _ & _ & _ & _ & _ & _ & _ & E).
    rewrite E by (apply quiet_not_enabled; assumption). auto.
  - assert (E : SERCOM1_Handler st = st)
      by (apply SERCOM1_Handler_idle; apply Hq).
    destruct (irq_pending st); rewrite ?E; auto.
Qed.

Lemma at_entry_stable : env_stable (at_entry st0 cold).
Proof.
  intros a st (H1 & H2). destruct (env_effect a st) as (E1 & _).
  split; [rewrite E1; exact H1 | apply env_Tr_before; assumption].
Qed.

Lemma disabled_stable : env_stable (disabled st0 cold).
Proof.
  intros a st (H1 & H2 & H3). destruct (env_effect a st) as (E1 & E2 & _).
  unfold disabled, CTRLA_ENABLE in *. rewrite E1, E2.
  repeat split; [assumption .. | apply env_Tr_before; assumption].
Qed.

Lemma reset_done_stable q : env_stable (reset_done st0 cold q).
Proof.
  intros a st (H2 & H3). destruct (env_quiet a st H2) as (E1 & E2).
  split; [exact E1 | apply (Tr_same q st); assumption].
Qed.

Lemma enabled_stable : env_stable (enabled st0 cold).
Proof.
  intros a st ((L1 & L2) & HT). destruct a as [| v |]; simpl.
  - destruct (hw_tick_frame st) as (E1 & _ & _ & _ & _ & E3 & E4 & _ & E5 & _).
    unfold enabled, live, CTRLA_ENABLE in *. rewrite E3, E4, E5 by discriminate.
    repeat split; [assumption | | apply (Tr_same 3 st); assumption].
    intros H. rewrite (L2 H). reflexivity.
  - unfold hw_receive.
    destruct (fully_enabled st) eqn:Hf; msimpl;
      [destruct (Z.testbit _ _); msimpl |]; try (split; [split |]; assumption).
    unfold fully_enabled in Hf. apply andb_prop in Hf as [_ Hf].
    apply Nat.eqb_eq in Hf.
    repeat split; [exact L1 | intros _; exact Hf | exact HT].
  - destruct (irq_pending st); [| split; [split |]; assumption].
    destruct (INTFLAG_RXC st) eqn:Hr.
    + destruct (SERCOM1_Handler_serves st Hr) as
        (E1 & E2 & _ & _ & _ & _ & E3 & _ & E4 & _).
      unfold enabled, live, CTRLA_ENABLE in *. rewrite E2, E3 by discriminate.
      repeat split; [assumption | discriminate |].
      apply (Tr_logs 3 3 _ st _ E1); [| exact HT].
      destruct cold; reflexivity.
    + rewrite SERCOM1_Handler_idle by assumption.
      split; [split; [exact L1 | intros H; congruence] | exact HT].
Qed.

Lemma cold_rx_safe q st :
  (cold = true -> nvic_sercom1 st = false) -> Tr st0 cold q st -> rx_safe st0 cold st.
Proof.
  intros H HT. split; [exists q; assumption |].
  intros Hc. unfold dispatches, irq_pending. rewrite (H Hc). discriminate.
Qed.

Lemma quiet_rx_safe q st : quiet st -> Tr st0 cold q st -> rx_safe st0 cold st.
Proof.
  intros (H & _) HT. split; [exists q; assumption |].
  intros _. unfold dispatches. rewrite H, andb_false_r. discriminate.
Qed.

Lemma enabled_rx_safe st : enabled st0 cold st -> rx_safe st0 cold st.
Proof.
  intros ((L1 & L2) & HT). split; [exists 3%nat; assumption |].
  intros _. unfold dispatches, fully_enabled. intros H. apply andb_prop in H as [_ H].
  rewrite L1, (L2 H). reflexivity.
Qed.

(** A statement that writes neither CTRLA nor INTFLAG and logs events
    that take the monitor from [q] to [q']. *)
Lemma reset_done_keep q q' evs st st' :
  trace st' = trace st ++ evs -> monitor cold q evs = Some q' ->
  regs st' INTFLAG = regs st INTFLAG -> regs st' CTRLA = regs st CTRLA ->
  reset_done st0 cold q st -> reset_done st0 cold q' st'.
Proof.
  intros E Hm Ef Ec ((Q1 & Q2 & Q3) & HT).
  unfold reset_done, quiet, INTFLAG_RXC, CTRLA_ENABLE in *.
  rewrite Ef, Ec. repeat split; try assumption.
  apply (Tr_logs q q' evs st); assumption.
Qed.

Lemma disable_op st :
  at_entry st0 cold st -> disabled st0 cold (CTRLA_bit_ENABLE false st).
Proof.
  intros (H1 & HT). unfold CTRLA_bit_ENABLE.
  set (v := clear_bit (regs st CTRLA) CTRLA_ENABLE_Pos).
  assert (Hv : Z.testbit v CTRLA_ENABLE_Pos = false).
  { unfold v. rewrite testbit_clear_bit by (unfold CTRLA_ENABLE_Pos; lia).
    rewrite Z.eqb_refl. apply andb_false_r. }
  destruct (write_CTRLA_effect v st) as (E1 & E2 & _ & _ & _ & R1 & R0).
  unfold disabled, CTRLA_ENABLE. repeat split.
  - rewrite E2. exact H1.
  - destruct (Z.testbit v CTRLA_SWRST_Pos) eqn:Hs.
    + rewrite (R1 eq_refl). apply Z.testbit_0_l.
    + destruct (R0 eq_refl) as (R & _). rewrite R, testbit_u32; [exact Hv |].
      unfold CTRLA_ENABLE_Pos. lia.
  - apply (Tr_log 0 0 (EvWrite CTRLA v) st); [exact E1 | | exact HT].
    unfold monitor_step. rewrite Hv. reflexivity.
Qed.

Lemma swrst_op st :
  disabled st0 cold st -> reset_done st0 cold 0 (CTRLA_bit_SWRST st).
Proof.
  intros (H1 & H2 & HT). unfold CTRLA_bit_SWRST.
  set (v := set_bit (regs st CTRLA) CTRLA_SWRST_Pos).
  assert (Hs : Z.testbit v CTRLA_SWRST_Pos = true).
  { unfold v. rewrite testbit_set_bit by (unfold CTRLA_SWRST_Pos; lia).
    rewrite Z.eqb_refl. apply orb_true_r. }
  assert (Hv : Z.testbit v CTRLA_ENABLE_Pos = false).
  { unfold v. rewrite testbit_set_bit by (unfold CTRLA_SWRST_Pos; lia).
    unfold CTRLA_ENABLE in H2. rewrite H2. reflexivity. }
  destruct (write_CTRLA_effect v st) as (E1 & _ & _ & _ & _ & R1 & _).
  unfold reset_done, quiet, INTFLAG_RXC, CTRLA_ENABLE.
  rewrite !(R1 Hs). repeat split; try apply Z.testbit_0_l.
  apply (Tr_log 0 0 (EvWrite CTRLA v) st); [exact E1 | | exact HT].
  unfold monitor_step. rewrite Hv. reflexivity.
Qed.

Lemma mode_op q st :
  reset_done st0 cold q st -> reset_done st0 cold q (write_CTRLA CTRLA_usart st).
Proof.
  intros ((Q1 & Q2 & Q3) & HT).
  destruct (write_CTRLA_effect CTRLA_usart st) as (E1 & _ & _ & _ & _ & _ & R0).
  destruct (R0 eq_refl) as (R & Ro & _).
  unfold reset_done, quiet, INTFLAG_RXC, CTRLA_ENABLE in *.
  rewrite R, Ro by discriminate. repeat split; try assumption.
  apply (Tr_log q q (EvWrite CTRLA CTRLA_usart) st); [exact E1 | reflexivity | exact HT].
Qed.

Lemma config_keeps clk cfg baud :
  Forall (keeps (reset_done st0 cold 0))
    ([OpWait SYNCBUSY_SWRST; OpWait (fun st => SYNCBUSY_SWRST st || SYNCBUSY_ENABLE st)]
       ++ pinmux_ops cfg ++ config_ops clk baud).
Proof.
  assert (P : keeps (reset_done st0 cold 0) (OpDo uart_configure_pinmux)).
  { intros st. apply (reset_done_keep 0 0
      [EvGpioSetPinFunction PIN_PA00 MUX_PA00D_SERCOM1_PAD0;
       EvGpioSetPinFunction PIN_PA01 MUX_PA01D_SERCOM1_PAD1]); try reflexivity.
    munfold. msimpl. rewrite <- app_assoc. reflexivity. }
  unfold pinmux_ops, config_ops.
  destruct cfg; repeat (apply Forall_cons; split); try apply Forall_nil;
    try exact I; try exact P; intros st.
  all: try apply mode_op.
  all: try (apply (reset_done_keep 0 0 [EvPmEnableBusClock]); reflexivity).
  all: try (apply (reset_done_keep 0 0 [EvGclkEnableChannel]); reflexivity).
  all: try (apply (reset_done_keep 0 0 [EvWrite BAUD (Baud.baud clk baud)]); reflexivity).
  all: try (apply (reset_done_keep 0 0 [EvWrite CTRLB CTRLB_usart]); reflexivity).
Qed.

Lemma unmask_op st :
  reset_done st0 cold 0 st ->
  reset_done st0 cold 1 (write_INTENSET SERCOM_USART_INTENSET_RXC st).
Proof.
  apply (reset_done_keep 0 1 [EvWrite INTENSET SERCOM_USART_INTENSET_RXC]);
    reflexivity.
Qed.

Lemma line_op st :
  reset_done st0 cold 1 st -> reset_done st0 cold 2 (NVIC_EnableIRQ st).
Proof. apply (reset_done_keep 1 2 [EvNvicEnableIRQ]); reflexivity. Qed.

Lemma enable_op st :
  reset_done st0 cold 2 st -> enabled st0 cold (CTRLA_bit_ENABLE true st).
Proof.
  intros ((Q1 & Q2 & Q3) & HT). unfold CTRLA_bit_ENABLE.
  set (v := set_bit (regs st CTRLA) CTRLA_ENABLE_Pos).
  assert (Hv : Z.testbit v CTRLA_ENABLE_Pos = true).
  { unfold v. rewrite testbit_set_bit by (unfold CTRLA_ENABLE_Pos; lia).
    rewrite Z.eqb_refl. apply orb_true_r. }
  assert (Hs : Z.testbit v CTRLA_SWRST_Pos = false).
  { unfold v. rewrite testbit_set_bit by (unfold CTRLA_ENABLE_Pos; lia).
    rewrite Q3. reflexivity. }
  destruct (write_CTRLA_effect v st) as (E1 & _ & _ & _ & _ & _ & R0).
  destruct (R0 Hs) as (R & Ro & _).
  unfold enabled, live, INTFLAG_RXC, CTRLA_ENABLE in *.
  rewrite R, Ro by discriminate. repeat split.
  - rewrite testbit_u32; [exact Hv | unfold CTRLA_ENABLE_Pos; lia].
  - congruence.
  - apply (Tr_log 2 3 (EvWrite CTRLA v) st); [exact E1 | | exact HT].
    unfold monitor_step. rewrite Hv. reflexivity.
Qed.

Lemma uart_init_ops_phases clk cfg baud :
  uart_init_ops clk cfg baud =
  [OpWait SYNCBUSY_ENABLE] ++ [OpDo (CTRLA_bit_ENABLE false)] ++
  [OpWait SYNCBUSY_SWRST] ++ [OpDo CTRLA_bit_SWRST] ++
  (([OpWait SYNCBUSY_SWRST; OpWait (fun st => SYNCBUSY_SWRST st || SYNCBUSY_ENABLE st)]
      ++ pinmux_ops cfg ++ config_ops clk baud) ++
   [OpDo (write_INTENSET SERCOM_USART_INTENSET_RXC)] ++ [OpDo NVIC_EnableIRQ] ++
   [OpDo (CTRLA_bit_ENABLE true)] ++ [OpWait SYNCBUSY_ENABLE]).
Proof. destruct cfg; reflexivity. Qed.

Lemma uart_init_arming clk cfg baud :
  hoare (rx_safe st0 cold) (at_entry st0 cold) (uart_init_ops clk cfg baud)
        (enabled st0 cold).
Proof.
  assert (S0 : forall st, at_entry st0 cold st -> rx_safe st0 cold st)
    by (intros st (H1 & HT); apply (cold_rx_safe 0); assumption).
  assert (S1 : forall st, disabled st0 cold st -> rx_safe st0 cold st)
    by (intros st (H1 & _ & HT); apply (cold_rx_safe 0); assumption).
  assert (S2 : forall q st, reset_done st0 cold q st -> rx_safe st0 cold st)
    by (intros q st (H & HT); apply (quiet_rx_safe q); assumption).
  rewrite uart_init_ops_phases.
  apply hoare_seq with (J := at_entry st0 cold);
    [apply hoare_wait; [apply at_entry_stable | exact S0] |].
  apply hoare_seq with (J := disabled st0 cold);
    [apply hoare_do; auto using at_entry_stable, disabled_stable, disable_op |].
  apply hoare_seq with (J := disabled st0 cold);
    [apply hoare_wait; [apply disabled_stable | exact S1] |].
  apply hoare_seq with (J := reset_done st0 cold 0);
    [apply hoare_do; eauto using disabled_stable, reset_done_stable, swrst_op |].
  apply hoare_seq with (J := reset_done st0 cold 0);
    [apply hoare_keeps; eauto using reset_done_stable, config_keeps |].
  apply hoare_seq with (J := reset_done st0 cold 1);
    [apply hoare_do; eauto using reset_done_stable, unmask_op |].
  apply hoare_seq with (J := reset_done st0 cold 2);
    [apply hoare_do; eauto using reset_done_stable, line_op |].
  apply hoare_seq with (J := enabled st0 cold);
    [apply hoare_do;
       eauto using reset_done_stable, enabled_stable, enabled_rx_safe, enable_op |].
  apply hoare_wait; [apply enabled_stable | apply enabled_rx_safe].
Qed.
End Arming.

(** ** Frame of the environment *)

Lemma env_frame a st :
  uart_active (env_step a st) = uart_active st /\
  pinmux (env_step a st) = pinmux st /\
  (forall r, r <> INTFLAG -> r <> DATA -> regs (env_step a st) r = regs st r).
Proof.
  destruct a as [| v |]; simpl.
  - destruct (hw_tick_frame st) as (_ & _ & E1 & E2 & _ & E3 & _). auto.
  - destruct (hw_receive_frame v st) as (_ & _ & E1 & E2 & _ & E3 & _). auto.
  - destruct (irq_pending st); [| auto].
    destruct (INTFLAG_RXC st) eqn:Hr.
    + destruct (SERCOM1_Handler_serves st Hr) as (_ & _ & _ & E1 & E2 & _ & E3 & _). auto.
    + rewrite SERCOM1_Handler_idle by assumption. auto.
Qed.

(** ** Termination of the polling loops of [uart_init] *)

Lemma hw_tick_within n st : within n st -> within n (hw_tick st).
Proof.
  destruct (hw_tick_frame st) as (_ & _ & _ & _ & E0 & _ & _ & E1 & E2 & E3).
  unfold within. rewrite E0, E1, E2, E3. lia.
Qed.

Lemma hw_tick_busiest st : busiest (hw_tick st) = pred (busiest st).
Proof.
  destruct (hw_tick_frame st) as (_ & _ & _ & _ & _ & _ & _ & E1 & E2 & E3).
  unfold busiest. rewrite E1, E2, E3. lia.
Qed.

Lemma wait_while_terminates n cond :
  sync_cond cond ->
  forall fuel st, within n st -> (busiest st <= fuel)%nat ->
  exists st', wait_while cond fuel st = Some st' /\ within n st'.
Proof.
  intros Hc. induction fuel as [| fuel IH]; intros st Hw Hb; simpl.
  - destruct (cond st) eqn:E; [| eauto].
    apply Hc in E. lia.
  - destruct (cond st) eqn:E; [| eauto].
    apply IH; [apply hw_tick_within; assumption |].
    rewrite hw_tick_busiest. lia.
Qed.

Lemma run_terminates n fuel ops :
  (n <= fuel)%nat -> Forall (terminating n) ops ->
  forall st, within n st -> exists st', run fuel ops st = Some st' /\ within n st'.
Proof.
  intros Hn Hops. induction Hops as [| o ops Ho _ IH]; intros st Hw; simpl.
  - eauto.
  - destruct o as [f | cond]; simpl.
    + apply IH. apply Ho. exact Hw.
    + destruct (wait_while_terminates n cond Ho fuel st Hw) as (st1 & E & Hw1).
      { unfold within, busiest in *. lia. }
      rewrite E. apply IH. exact Hw1.
Qed.

Lemma write_CTRLA_within n v st : within n st -> within n (write_CTRLA v st).
Proof.
  unfold within, write_CTRLA. intros H.
  destruct (Z.testbit v CTRLA_SWRST_Pos); [msimpl; lia |].
  destruct (negb _); msimpl; lia.
Qed.

Lemma uart_init_ops_terminating n clk cfg baud :
  Forall (terminating n) (uart_init_ops clk cfg baud).
Proof.
  assert (C1 : sync_cond SYNCBUSY_ENABLE).
  { intros st. unfold SYNCBUSY_ENABLE, busiest.
    destruct (sync_enable st); [discriminate | lia]. }
  assert (C2 : sync_cond SYNCBUSY_SWRST).
  { intros st. unfold SYNCBUSY_SWRST, busiest.
    destruct (sync_swrst st); [discriminate | lia]. }
  assert (C3 : sync_cond SYNCBUSY_CTRLB).
  { intros st. unfold SYNCBUSY_CTRLB, busiest.
    destruct (sync_ctrlb st); [discriminate | lia]. }
  assert (C4 : sync_cond (fun st => SYNCBUSY_SWRST st || SYNCBUSY_ENABLE st)).
  { intros st H. apply orb_prop in H as [H | H]; [apply C2 | apply C1]; exact H. }
  unfold uart_init_ops, reset_ops, pinmux_ops, config_ops, arm_ops.
  destruct cfg; simpl;
    repeat (apply Forall_cons; split); try apply Forall_nil;
    cbn [terminating]; try assumption; try exact I;
    intros st Hw; unfold CTRLA_bit_ENABLE, CTRLA_bit_SWRST;
    try (apply write_CTRLA_within; exact Hw);
    unfold within in *; munfold; msimpl; lia.
Qed.

(** Given enough polls, [uart_init] returns. *)
Lemma uart_init_terminates n fuel clk cfg baud st :
  within n st -> (n <= fuel)%nat ->
  exists st', uart_init fuel clk cfg baud st = Some st'.
Proof.
  intros Hw Hn.
  destruct (run_terminates n fuel _ Hn (uart_init_ops_terminating n clk cfg baud) st Hw)
    as (st' & E & _).
  exists st'. exact E.
Qed.

(** ** The baud divisor *)

(** [UINT32_C(1) << n] is 0 for the four counts of lines 114-117, so the
    four constants are 0 whatever the clock. *)
Lemma baud_constants_zero clk :
  Baud.m1 clk = 0 /\ Baud.m2 clk = 0 /\ Baud.m3 clk = 0 /\ Baud.m4 clk = 0.
Proof.
  unfold Baud.m1, Baud.m2, Baud.m3, Baud.m4,
    Baud.m1_with, Baud.m2_with, Baud.m3_with, Baud.m4_with.
  change (shl32 1 32) with 0. change (shl32 1 42) with 0.
  change (shl32 1 52) with 0. change (shl32 1 62) with 0.
  rewrite Zdiv_0_l, Z.land_0_l. repeat split; reflexivity.
Qed.

Lemma baud_fold_zero baudrate : Baud.fold 0 0 0 0 baudrate = 65535.
Proof.
  unfold Baud.fold, mul32. rewrite Z.mul_0_r. reflexivity.
Qed.

Lemma baud_is_65535 clk baudrate : Baud.baud clk baudrate = 65535.
Proof.
  unfold Baud.baud, Baud.baud_with.
  destruct (baud_constants_zero clk) as (E1 & E2 & E3 & E4).
  unfold Baud.m1, Baud.m2, Baud.m3, Baud.m4 in *.
  rewrite E1, E2, E3, E4. apply baud_fold_zero.
Qed.

(** The reading where an oversized shift count wraps modulo 32 gives the
    same register value on the representative inputs. *)
Lemma baud_masked_is_65535 clk target_baud :
  In clk Baud.targeted_clocks -> In target_baud Baud.representative_bauds ->
  Baud.baud_with shl32_masked clk target_baud = 65535.
Proof.
  unfold Baud.targeted_clocks, Baud.representative_bauds. simpl.
  intros Hc Hb.
  repeat (destruct Hc as [<- | Hc]; [| try contradiction]);
    repeat (destruct Hb as [<- | Hb]; [| try contradiction]);
    vm_compute; reflexivity.
Qed.

(** The algorithm as the specification words it agrees with the reference
    formula on the representative inputs. *)
Lemma spec_algorithm_matches_reference clock_hz target_baud :
  In clock_hz Baud.targeted_clocks -> In target_baud Baud.representative_bauds ->
  Baud.spec_compute_baud_register clock_hz target_baud =
  Baud.reference clock_hz target_baud.
Proof.
  unfold Baud.targeted_clocks, Baud.representative_bauds. simpl.
  intros Hc Hb.
  repeat (destruct Hc as [<- | Hc]; [| try contradiction]);
    repeat (destruct Hb as [<- | Hb]; [| try contradiction]);
    vm_compute; reflexivity.
Qed.

Lemma reference_below_65535 clock_hz target_baud :
  In clock_hz Baud.targeted_clocks -> In target_baud Baud.representative_bauds ->
  Baud.reference clock_hz target_baud < 65535.
Proof.
  unfold Baud.targeted_clocks, Baud.representative_bauds. simpl.
  intros Hc Hb.
  repeat (destruct Hc as [<- | Hc]; [| try contradiction]);
    repeat (destruct Hb as [<- | Hb]; [| try contradiction]);
    vm_compute; reflexivity.
Qed.

(** C1, evaluated on the code: for each targeted clock and each
    representative baud rate, the value [uart_init] computes and writes to
    the baud register is 65535, and the reference value
    65535 - floor(65536 * 16 * target_baud / clock_hz) is smaller: the two
    differ on every one of these inputs. *)
Theorem baud_differs_from_reference clk target_baud :
  In clk Baud.targeted_clocks -> In target_baud Baud.representative_bauds ->
  Baud.baud clk target_baud = 65535 /\
  (forall st, regs (write_BAUD (Baud.baud clk target_baud) st) BAUD = 65535) /\
  Baud.reference clk target_baud < Baud.baud clk target_baud.
Proof.
  intros Hc Hb. rewrite baud_is_65535. repeat split.
  apply reference_below_65535; assumption.
Qed.

Lemma baud_differs_from_reference_witness :
  Baud.baud 48000000 115200 = 65535 /\
  (forall st, regs (write_BAUD (Baud.baud 48000000 115200) st) BAUD = 65535) /\
  Baud.reference 48000000 115200 < Baud.baud 48000000 115200.
Proof.
  apply (baud_differs_from_reference 48000000 115200).
  - unfold Baud.targeted_clocks. simpl. auto.
  - unfold Baud.representative_bauds. simpl. auto 10.
Defined.

(** C2, evaluated on the code: the four constants [uart_init] precomputes
    are 0 for every clock, while the quotients of 2^32, 2^42, 2^52 and 2^62
    by a 48 MHz clock (the last three masked to 10 bits) are 89, 489, 992
    and 242; folded through the code's constants 115200 baud gives 65535,
    folded as the specification describes it gives 63019. *)
Theorem baud_constants_not_the_quotients :
  (forall clk, Baud.m1 clk = 0 /\ Baud.m2 clk = 0 /\ Baud.m3 clk = 0 /\ Baud.m4 clk = 0) /\
  Baud.spec_m1 48000000 = 89 /\ Baud.spec_m2 48000000 = 489 /\
  Baud.spec_m3 48000000 = 992 /\ Baud.spec_m4 48000000 = 242 /\
  Baud.baud 48000000 115200 = 65535 /\
  Baud.spec_compute_baud_register 48000000 115200 = 63019.
Proof.
  split; [apply baud_constants_zero |].
  repeat split; vm_compute; reflexivity.
Qed.

(** Lines 118-122 are not at fault: over the quotients themselves the
    fold gives the reference value on the representative inputs. *)
Lemma fold_with_quotients_matches_reference clock_hz target_baud :
  In clock_hz Baud.targeted_clocks -> In target_baud Baud.representative_bauds ->
  Baud.fold (Baud.spec_m1 clock_hz) (Baud.spec_m2 clock_hz)
            (Baud.spec_m3 clock_hz) (Baud.spec_m4 clock_hz) target_baud =
  Baud.reference clock_hz target_baud.
Proof.
  unfold Baud.targeted_clocks, Baud.representative_bauds. simpl.
  intros Hc Hb.
  repeat (destruct Hc as [<- | Hc]; [| try contradiction]);
    repeat (destruct Hb as [<- | Hb]; [| try contradiction]);
    vm_compute; reflexivity.
Qed.

(** ** What [uart_init] leaves in the registers *)

Section InitPost.
Variable clk : Z.
Variable cfg : bool.
Variable baudrate : Z.

Lemma anything_stable : env_stable anything.
Proof. intros a st _. exact I. Qed.

Lemma mode_set_stable : env_stable mode_set.
Proof.
  intros a st H. destruct (env_frame a st) as (_ & _ & E).
  unfold mode_set. rewrite E by discriminate. exact H.
Qed.

Lemma baud_set_stable : env_stable (baud_set clk baudrate).
Proof.
  intros a st (H1 & H2). destruct (env_frame a st) as (_ & _ & E).
  unfold baud_set, mode_set in *. rewrite !E by discriminate. auto.
Qed.

Lemma rx_unmasked_stable : env_stable (rx_unmasked clk baudrate).
Proof.
  intros a st ((H1 & H2) & H3). destruct (env_frame a st) as (_ & _ & E).
  unfold rx_unmasked, baud_set, mode_set, INTENSET_RXC in *.
  rewrite !E by discriminate. auto.
Qed.

Lemma up_stable : env_stable (up clk baudrate).
Proof.
  intros a st (H1 & H2 & H3). destruct (env_frame a st) as (_ & _ & E).
  unfold up, CTRLA_ENABLE, INTENSET_RXC in *. rewrite !E by discriminate. auto.
Qed.

Lemma uart_init_ops_registers :
  uart_init_ops clk cfg baudrate =
  (reset_ops ++ pinmux_ops cfg ++ [OpDo _pm_enable_bus_clock; OpDo _gclk_enable_channel]) ++
  [OpDo (write_CTRLA CTRLA_usart)] ++
  [OpDo (write_BAUD (Baud.baud clk baudrate))] ++
  [OpDo (write_CTRLB CTRLB_usart); OpWait SYNCBUSY_CTRLB] ++
  [OpDo (write_INTENSET SERCOM_USART_INTENSET_RXC)] ++
  [OpDo NVIC_EnableIRQ] ++
  [OpDo (CTRLA_bit_ENABLE true)] ++
  [OpWait SYNCBUSY_ENABLE].
Proof. unfold uart_init_ops, pinmux_ops. destruct cfg; reflexivity. Qed.

Lemma all_keep_anything l : Forall (keeps anything) l.
Proof.
  induction l as [| o l IH]; [apply Forall_nil; exact I |].
  apply Forall_cons. split; [| exact IH]. destruct o; simpl; auto.
Qed.

Lemma enable_after_mode st : (rx_unmasked clk baudrate) st -> (up clk baudrate) (CTRLA_bit_ENABLE true st).
Proof.
  intros ((H1 & H2) & H3). unfold CTRLA_bit_ENABLE.
  set (v := set_bit (regs st CTRLA) CTRLA_ENABLE_Pos).
  assert (Hv : Z.testbit v CTRLA_ENABLE_Pos = true).
  { unfold v. rewrite testbit_set_bit by (unfold CTRLA_ENABLE_Pos; lia).
    rewrite Z.eqb_refl. apply orb_true_r. }
  assert (Hs : Z.testbit v CTRLA_SWRST_Pos = false).
  { unfold v. rewrite testbit_set_bit by (unfold CTRLA_ENABLE_Pos; lia).
    rewrite H1. reflexivity. }
  destruct (write_CTRLA_effect v st) as (_ & _ & _ & _ & _ & _ & R0).
  destruct (R0 Hs) as (R & Ro & _).
  unfold up, CTRLA_ENABLE, INTENSET_RXC in *. rewrite R, !Ro by discriminate.
  repeat split; try assumption.
  rewrite testbit_u32; [exact Hv | unfold CTRLA_ENABLE_Pos; lia].
Qed.

Lemma uart_init_registers :
  hoare anything anything (uart_init_ops clk cfg baudrate) (up clk baudrate).
Proof.
  assert (T : forall P : machine -> Prop, forall st, P st -> anything st)
    by (intros; exact I).
  rewrite uart_init_ops_registers.
  apply hoare_seq with (J := anything);
    [apply hoare_keeps; auto using anything_stable, all_keep_anything |].
  apply hoare_seq with (J := mode_set).
  { apply hoare_do; eauto using anything_stable, mode_set_stable.
    intros st _. destruct (write_CTRLA_effect CTRLA_usart st) as (_ & _ & _ & _ & _ & _ & R0).
    apply (R0 eq_refl). }
  apply hoare_seq with (J := (baud_set clk baudrate)).
  { apply hoare_do; eauto using mode_set_stable, baud_set_stable.
    intros st H. split; [exact H | reflexivity]. }
  apply hoare_seq with (J := (baud_set clk baudrate)).
  { apply hoare_keeps; eauto using baud_set_stable.
    repeat (apply Forall_cons; split); try apply Forall_nil; try exact I.
    intros st H. exact H. }
  apply hoare_seq with (J := (rx_unmasked clk baudrate)).
  { apply hoare_do; eauto using baud_set_stable, rx_unmasked_stable.
    intros st H. split; [exact H |].
    unfold INTENSET_RXC, write_INTENSET. msimpl.
    rewrite Z.lor_spec. apply orb_true_r. }
  apply hoare_seq with (J := (rx_unmasked clk baudrate)).
  { apply hoare_do; eauto using rx_unmasked_stable. }
  apply hoare_seq with (J := (up clk baudrate)).
  { apply hoare_do; eauto using rx_unmasked_stable, up_stable, enable_after_mode. }
  apply hoare_wait; eauto using up_stable.
Qed.
End InitPost.

(** ** The Active flag *)

Section ActiveFlag.
Variable a : bool.

Lemma active_is_stable : env_stable (active_is a).
Proof.
  intros e st H. destruct (env_frame e st) as (E & _).
  unfold active_is. rewrite E. exact H.
Qed.

Lemma write_CTRLA_active v st : uart_active (write_CTRLA v st) = uart_active st.
Proof. destruct (write_CTRLA_effect v st) as (_ & _ & E & _). exact E. Qed.

Lemma registers_keep_active clk baudrate :
  Forall (keeps (active_is a)) (reset_ops ++ config_ops clk baudrate ++ arm_ops).
Proof.
  unfold reset_ops, config_ops, arm_ops. simpl.
  repeat (apply Forall_cons; split); try apply Forall_nil; try exact I;
    intros st H; unfold active_is, CTRLA_bit_ENABLE, CTRLA_bit_SWRST in *;
    rewrite ?write_CTRLA_active; exact H.
Qed.
End ActiveFlag.

(** Without pin configuration, no state met while [uart_init] runs has a
    changed Active flag, whatever the hardware and the handler do meanwhile. *)
Lemma uart_init_false_keeps_active clk baudrate st k st' :
  steps (uart_init_ops clk false baudrate, st) (k, st') ->
  uart_active st' = uart_active st.
Proof.
  intros H.
  assert (G : hoare (active_is (uart_active st)) (active_is (uart_active st))
                (uart_init_ops clk false baudrate) (active_is (uart_active st))).
  { apply hoare_keeps;
      [apply active_is_stable | intros s Hs; exact Hs |
       apply (registers_keep_active (uart_active st) clk baudrate)]. }
  destruct (G st k st' eq_refl H) as [Hs _]. exact Hs.
Qed.

(** With pin configuration, the flag is set when [uart_init] is done. *)
Lemma uart_init_true_sets_active clk baudrate st st' :
  steps (uart_init_ops clk true baudrate, st) ([], st') ->
  uart_active st' = true.
Proof.
  intros H.
  assert (G : hoare anything anything (uart_init_ops clk true baudrate) (active_is true)).
  { change (uart_init_ops clk true baudrate) with
      (reset_ops ++ [OpDo uart_configure_pinmux] ++ config_ops clk baudrate ++ arm_ops).
    pose proof (registers_keep_active true clk baudrate) as K.
    apply Forall_app in K as [_ K].
    apply hoare_seq with (J := anything);
      [apply hoare_keeps; auto using anything_stable, all_keep_anything |].
    apply hoare_seq with (J := active_is true).
    - apply hoare_do;
        [apply anything_stable | apply active_is_stable | intros; exact I ..
         | intros; reflexivity].
    - apply hoare_keeps; [apply active_is_stable | intros; exact I | exact K]. }
  apply (G st [] st' I H). reflexivity.
Qed.

Lemma wait_while_active cond fuel : forall st st',
  wait_while cond fuel st = Some st' -> uart_active st' = uart_active st.
Proof.
  induction fuel as [| fuel IH]; intros st st' H; simpl in H;
    destruct (cond st); try discriminate; try (injection H as <-; reflexivity).
  apply IH in H. destruct (hw_tick_frame st) as (_ & _ & E & _). congruence.
Qed.

(** C7: [uart_configure_pinmux] sets the Active flag, [uart_release_pinmux]
    clears it; [uart_init], which returns once its polling loops are given
    enough polls, leaves the flag set if it was asked to configure the pins
    and unchanged otherwise; writing ENABLE or SWRST, the interrupt handler
    and both write routines leave it as it is. *)
Theorem uart_active_set_only_by_pinmux
    (clk baudrate : Z) (cfg : bool) (n fuel : nat) (st : machine) :
  within n st -> (n <= fuel)%nat ->
  uart_active (uart_configure_pinmux st) = true /\
  uart_active (uart_release_pinmux st) = false /\
  (exists st', uart_init fuel clk cfg baudrate st = Some st' /\
               uart_active st' = if cfg then true else uart_active st) /\
  (forall b, uart_active (CTRLA_bit_ENABLE b st) = uart_active st) /\
  uart_active (CTRLA_bit_SWRST st) = uart_active st /\
  uart_active (SERCOM1_Handler st) = uart_active st /\
  (forall byte, uart_active (uart_nonblocking_write byte st) = uart_active st) /\
  (forall byte st', uart_blocking_write fuel byte st = Some st' ->
                    uart_active st' = uart_active st).
Proof.
  intros Hw Hn. repeat split.
  - destruct (uart_init_terminates n fuel clk cfg baudrate st Hw Hn) as (st' & E).
    exists st'. split; [exact E |]. apply uart_init_steps in E.
    destruct cfg.
    + apply (uart_init_true_sets_active clk baudrate st st' E).
    + apply (uart_init_false_keeps_active clk baudrate st [] st' E).
  - intros b. apply write_CTRLA_active.
  - apply write_CTRLA_active.
  - destruct (env_frame Irq st) as (E & _). simpl in E.
    destruct (INTFLAG_RXC st) eqn:Hr.
    + destruct (SERCOM1_Handler_serves st Hr) as (_ & _ & _ & E' & _). exact E'.
    + rewrite SERCOM1_Handler_idle by assumption. reflexivity.
  - intros byte st' H. unfold uart_blocking_write in H.
    destruct (wait_while _ fuel st) as [st1 |] eqn:E; [| discriminate].
    injection H as <-. apply wait_while_active in E. exact E.
Qed.

Lemma uart_active_set_only_by_pinmux_witness :
  exists st', uart_init 2 48000000 false 9600 (power_on 2) = Some st' /\
              uart_active st' = uart_active (power_on 2).
Proof.
  assert (Hw : within 2 (power_on 2)) by (unfold within; simpl; lia).
  assert (Hn : (2 <= 2)%nat) by lia.
  exact (proj1 (proj2 (proj2
    (uart_active_set_only_by_pinmux 48000000 9600 false 2 2 (power_on 2) Hw Hn)))).
Defined.

(** ** Initialisation *)

(** C4 as stated fails for a second call: on a running peripheral, whose
    line is still enabled at the controller, a character arrives, then
    [uart_init] clears ENABLE; an interrupt taken in that state hands the
    character to the callback although the peripheral is disabled, and the
    callback precedes every step of the arming. *)
Lemma reinit_dispatches_while_disabled :
  let st1 := CTRLA_bit_ENABLE false (hw_receive 0x41 initialised) in
  let st2 := env_step Irq st1 in
  let evs := [EvWrite CTRLA (clear_bit (regs initialised CTRLA) CTRLA_ENABLE_Pos);
              EvReadData 0x41; EvCallback 0x41] in
  exists k,
    steps (uart_init_ops 48000000 true 115200, initialised) (k, st1) /\
    steps (uart_init_ops 48000000 true 115200, initialised) (k, st2) /\
    nvic_sercom1 initialised = true /\
    dispatches st1 = true /\ fully_enabled st1 = false /\
    trace st2 = trace initialised ++ evs /\
    monitor true 0 evs = None.
Proof.
  intros st1 st2 evs.
  assert (S1 : steps (uart_init_ops 48000000 true 115200, initialised)
                 (tl (tl (uart_init_ops 48000000 true 115200)), st1)).
  { eapply rtc_l; [apply (step_env (HwReceive 0x41)) |].
    eapply rtc_l; [apply step_exit; vm_compute; reflexivity |].
    eapply rtc_l; [apply step_do |]. apply rtc_refl. }
  exists (tl (tl (uart_init_ops 48000000 true 115200))).
  split; [exact S1 |].
  split; [eapply rtc_r; [exact S1 | apply (step_env Irq)] |].
  repeat split; vm_compute; reflexivity.
Qed.

(** C4, amended: take any execution of [uart_init], with the hardware moving
    and the handler being entered at any point in between.  At every state
    of it the events since entry are accepted by the arming monitor: the
    receive-complete interrupt is unmasked at the peripheral before the line
    is enabled at the interrupt controller, and the line is enabled before
    ENABLE is written as 1; when [uart_init] is done, all three have
    happened.  If the line is disabled at the controller on entry, then
    moreover no callback precedes the write of ENABLE, and an interrupt
    taken at that state hands a byte to the callback only if the peripheral
    is enabled with its synchronisation complete. *)
Theorem uart_init_arms_before_enable
    (clk baudrate : Z) (cfg : bool) (st0 st : machine) (k : list op) :
  steps (uart_init_ops clk cfg baudrate, st0) (k, st) ->
  exists evs q,
    trace st = trace st0 ++ evs /\ monitor false 0 evs = Some q /\
    (k = [] -> q = 3%nat) /\
    (nvic_sercom1 st0 = false ->
       monitor true 0 evs = Some q /\
       (dispatches st = true -> fully_enabled st = true)).
Proof.
  intros H.
  assert (T0 : forall c, Tr st0 c 0 st0).
  { intros c. exists []. split; [symmetry; apply app_nil_r | reflexivity]. }
  assert (H0 : at_entry st0 false st0) by (split; [discriminate | apply T0]).
  destruct (uart_init_arming st0 false clk cfg baudrate st0 k st H0 H)
    as (((q & evs & T1 & T2) & _) & Hk).
  exists evs, q. split; [exact T1 |]. split; [exact T2 |]. split.
  - intros Ek. destruct (Hk Ek) as (_ & (evs' & T1' & T2')).
    rewrite T1 in T1'. apply app_inv_head in T1'. subst evs'. congruence.
  - intros Hn.
    assert (H1 : at_entry st0 true st0) by (split; [intros _; assumption | apply T0]).
    destruct (uart_init_arming st0 true clk cfg baudrate st0 k st H1 H)
      as (((q' & evs' & T1' & T2') & Hd) & _).
    rewrite T1 in T1'. apply app_inv_head in T1'. subst evs'.
    apply monitor_strict_loose in T2' as T3.
    split; [congruence | apply Hd; reflexivity].
Qed.

Lemma uart_init_arms_before_enable_witness :
  exists st evs,
    uart_init 2 48000000 true 115200 (power_on 2) = Some st /\
    trace st = trace (power_on 2) ++ evs /\
    monitor false 0 evs = Some 3%nat /\ monitor true 0 evs = Some 3%nat /\
    (dispatches st = true -> fully_enabled st = true).
Proof.
  destruct (uart_init 2 48000000 true 115200 (power_on 2)) as [st |] eqn:E;
    [| vm_compute in E; discriminate].
  destruct (uart_init_arms_before_enable 48000000 115200 true (power_on 2) st []
              (uart_init_steps 2 _ _ _ _ _ E)) as (evs & q & T1 & T2 & Hk & Hc).
  destruct (Hc eq_refl) as (T3 & Hd).
  rewrite (Hk eq_refl) in T2, T3.
  exists st, evs. repeat split; assumption.
Defined.

(** The monitor is not vacuous: it rejects the line being enabled before
    the interrupt is unmasked and ENABLE being set before the line is
    enabled; the strict one rejects a callback before ENABLE is set. *)
Example monitor_rejects_wrong_orders :
  monitor false 0 [EvNvicEnableIRQ; EvWrite INTENSET 4; EvWrite CTRLA 2] = None /\
  monitor false 0 [EvWrite INTENSET 4; EvWrite CTRLA 2; EvNvicEnableIRQ] = None /\
  monitor true 0 [EvWrite INTENSET 4; EvNvicEnableIRQ; EvCallback 65; EvWrite CTRLA 2] = None /\
  monitor true 0 [EvWrite INTENSET 4; EvNvicEnableIRQ; EvWrite CTRLA 2; EvCallback 65] = Some 3%nat.
Proof. repeat split; reflexivity. Qed.

(** Once [uart_init] is done a character that arrives is handed to the
    callback: the guarantee above is not kept by never dispatching. *)
Example byte_served_after_init :
  let st := hw_receive 0x41 initialised in
  dispatches st = true /\ fully_enabled st = true /\
  trace (env_step Irq st) = trace initialised ++ [EvReadData 0x41; EvCallback 0x41].
Proof. repeat split; vm_compute; reflexivity. Qed.

(** C5, evaluated on the code: [uart_init(true, 115200)] returns once its
    polling loops are given enough polls; then ENABLE is set and the
    receive-complete interrupt is unmasked, but the baud register holds
    65535, which for the targeted clocks is not the reference value
    65535 - floor(65536 * 16 * 115200 / clock_hz). *)
Theorem uart_init_115200_registers (clk : Z) (n fuel : nat) (st : machine) :
  within n st -> (n <= fuel)%nat ->
  exists st', uart_init fuel clk true 115200 st = Some st' /\
    CTRLA_ENABLE st' = true /\ INTENSET_RXC st' = true /\
    regs st' BAUD = 65535 /\
    (In clk Baud.targeted_clocks -> regs st' BAUD <> Baud.reference clk 115200).
Proof.
  intros Hw Hn.
  destruct (uart_init_terminates n fuel clk true 115200 st Hw Hn) as (st' & E).
  exists st'. split; [exact E |]. apply uart_init_steps in E.
  destruct (uart_init_registers clk true 115200 st [] st' I E) as (_ & Hup).
  destruct (Hup eq_refl) as (H1 & H2 & H3).
  rewrite baud_is_65535 in H3. change (u16 65535) with 65535 in H3.
  repeat split; try assumption.
  intros Hc. rewrite H3.
  assert (L : Baud.reference clk 115200 < 65535).
  { apply reference_below_65535; [exact Hc |].
    unfold Baud.representative_bauds. simpl. auto 10. }
  lia.
Qed.

Lemma uart_init_115200_registers_witness :
  exists st', uart_init 3 48000000 true 115200 (power_on 3) = Some st' /\
    CTRLA_ENABLE st' = true /\ INTENSET_RXC st' = true /\
    regs st' BAUD = 65535 /\
    (In 48000000 Baud.targeted_clocks -> regs st' BAUD <> Baud.reference 48000000 115200).
Proof.
  apply (uart_init_115200_registers 48000000 3 3 (power_on 3)).
  - unfold within. simpl. lia.
  - lia.
Defined.

Example reference_115200_at_48MHz : Baud.reference 48000000 115200 = 63019.
Proof. reflexivity. Qed.

(** ** Pin multiplexing *)

(** C8: releasing the pins twice leaves the Active flag false and the pin
    multiplexer exactly as one release leaves it. *)
Theorem uart_release_pinmux_idempotent (st : machine) :
  uart_active (uart_release_pinmux (uart_release_pinmux st)) = false /\
  pinmux (uart_release_pinmux (uart_release_pinmux st)) =
  pinmux (uart_release_pinmux st).
Proof.
  split; [reflexivity |]. munfold. msimpl.
  apply map_eq. intros pin.
  destruct (decide (pin = PIN_PA01)) as [-> | H1];
    [rewrite !lookup_insert_eq; reflexivity |].
  rewrite !(lookup_insert_ne _ PIN_PA01) by congruence.
  destruct (decide (pin = PIN_PA00)) as [-> | H0];
    [rewrite !lookup_insert_eq; reflexivity |].
  rewrite !(lookup_insert_ne _ PIN_PA00) by congruence.
  rewrite !(lookup_insert_ne _ PIN_PA01) by congruence.
  rewrite !(lookup_insert_ne _ PIN_PA00) by congruence. reflexivity.
Qed.

(** C9: configuring the pins and then releasing them leaves both pins in
    the unconfigured role and the Active flag false. *)
Theorem uart_configure_then_release (st : machine) :
  pin_role PIN_PA00 (uart_release_pinmux (uart_configure_pinmux st)) =
    Some GPIO_PIN_FUNCTION_OFF /\
  pin_role PIN_PA01 (uart_release_pinmux (uart_configure_pinmux st)) =
    Some GPIO_PIN_FUNCTION_OFF /\
  uart_active (uart_release_pinmux (uart_configure_pinmux st)) = false.
Proof.
  unfold pin_role. munfold. msimpl. repeat split.
  - rewrite lookup_insert_ne by discriminate. apply lookup_insert_eq.
  - apply lookup_insert_eq.
Qed.

(** The pins after a round trip are as after a release alone. *)
Lemma release_after_configure_pinmux (st : machine) :
  pinmux (uart_release_pinmux (uart_configure_pinmux st)) =
  pinmux (uart_release_pinmux st).
Proof.
  munfold. msimpl. apply map_eq. intros pin.
  destruct (decide (pin = PIN_PA01)) as [-> | H1];
    [rewrite !lookup_insert_eq; reflexivity |].
  rewrite !(lookup_insert_ne _ PIN_PA01) by congruence.
  destruct (decide (pin = PIN_PA00)) as [-> | H0];
    [rewrite !lookup_insert_eq; reflexivity |].
  rewrite !(lookup_insert_ne _ PIN_PA00) by congruence.
  rewrite !(lookup_insert_ne _ PIN_PA01) by congruence.
  rewrite !(lookup_insert_ne _ PIN_PA00) by congruence. reflexivity.
Qed.

(** ** The receive path *)

Lemma env_run_idle acts : forall st,
  forallb no_arrival acts = true -> INTFLAG_RXC st = false ->
  trace (env_run acts st) = trace st.
Proof.
  induction acts as [| a acts IH]; intros st Ha Hr; simpl in *; [reflexivity |].
  apply andb_prop in Ha as [Ha1 Ha2].
  destruct a as [| v |]; simpl in *; try discriminate.
  - destruct (hw_tick_frame st) as (E1 & _ & _ & _ & _ & _ & E2 & _).
    fold (env_run acts (hw_tick st)). rewrite IH by congruence. exact E1.
  - fold (env_run acts (if irq_pending st then SERCOM1_Handler st else st)).
    rewrite SERCOM1_Handler_idle by assumption.
    destruct (irq_pending st); apply IH; assumption.
Qed.

(** A character [v] arriving at an enabled receiver is such a
    receive-complete condition. *)
Lemma hw_receive_raises v st :
  fully_enabled st = true -> Z.testbit (regs st CTRLB) CTRLB_RXEN_Pos = true ->
  INTFLAG_RXC (hw_receive v st) = true /\ regs (hw_receive v st) DATA = u16 v /\
  trace (hw_receive v st) = trace st.
Proof.
  intros He Hr. unfold hw_receive, INTFLAG_RXC. rewrite He, Hr. msimpl.
  repeat split. rewrite testbit_set_bit by (unfold INTFLAG_RXC_Pos; lia).
  rewrite Z.eqb_refl. apply orb_true_r.
Qed.

(** C3: with receive-complete raised and a 16-bit value [v] in the data
    register, the handler reads the data register once and calls the
    callback once, with the low 8 bits of [v]; entered again it does
    nothing, and as long as no other character arrives no further read or
    callback happens, however often the handler is entered. *)
Theorem SERCOM1_Handler_dispatches_once
    (st : machine) (v : Z) (acts : list env_action) :
  0 <= v < 65536 -> INTFLAG_RXC st = true -> regs st DATA = v ->
  forallb no_arrival acts = true ->
  trace (SERCOM1_Handler st) = trace st ++ [EvReadData v; EvCallback (Z.land v 0xFF)] /\
  SERCOM1_Handler (SERCOM1_Handler st) = SERCOM1_Handler st /\
  trace (env_run acts (SERCOM1_Handler st)) = trace (SERCOM1_Handler st).
Proof.
  intros Hv Hr Hd Ha.
  destruct (SERCOM1_Handler_serves st Hr) as (E1 & E2 & _).
  rewrite Hd, u16_small, u8_land in E1 by assumption.
  repeat split.
  - exact E1.
  - apply SERCOM1_Handler_idle. exact E2.
  - apply env_run_idle; assumption.
Qed.

Lemma SERCOM1_Handler_dispatches_once_witness :
  let st := hw_receive 0x41 initialised in
  trace (SERCOM1_Handler st) = trace st ++ [EvReadData 0x41; EvCallback (Z.land 0x41 0xFF)] /\
  SERCOM1_Handler (SERCOM1_Handler st) = SERCOM1_Handler st /\
  trace (env_run [Irq; HwTick; Irq] (SERCOM1_Handler st)) = trace (SERCOM1_Handler st).
Proof.
  apply (SERCOM1_Handler_dispatches_once (hw_receive 0x41 initialised) 0x41 [Irq; HwTick; Irq]).
  - lia.
  - vm_compute. reflexivity.
  - vm_compute. reflexivity.
  - reflexivity.
Defined.

(** C10: entered while receive-complete is clear, the handler reads no
    data, calls no callback and leaves the machine as it is. *)
Theorem SERCOM1_Handler_spurious (st : machine) :
  INTFLAG_RXC st = false ->
  SERCOM1_Handler st = st /\ trace (SERCOM1_Handler st) = trace st.
Proof.
  intros H. rewrite SERCOM1_Handler_idle by exact H. split; reflexivity.
Qed.

Lemma SERCOM1_Handler_spurious_witness :
  SERCOM1_Handler initialised = initialised /\
  trace (SERCOM1_Handler initialised) = trace initialised.
Proof.
  apply (SERCOM1_Handler_spurious initialised). vm_compute. reflexivity.
Defined.

(** ** The transmit path *)

(** C6 as stated fails: with 0x41 in flight and the data register not
    empty, a non-blocking write of 0x42 replaces the transmit data. *)
Lemma nonblocking_write_overwrites_in_flight :
  uart_ready_for_write tx_in_flight = false /\
  tx_buffer tx_in_flight = 0x41 /\
  tx_buffer (uart_nonblocking_write 0x42 tx_in_flight) <> tx_buffer tx_in_flight.
Proof.
  repeat split; try (vm_compute; reflexivity).
  vm_compute. discriminate.
Qed.

(** C6, amended: [uart_nonblocking_write] stores its byte in the data
    register whatever [uart_ready_for_write] says: afterwards the transmit
    data is the byte written, one write to DATA has been made, and no other
    register than INTFLAG has changed. *)
Theorem uart_nonblocking_write_unconditional (byte : Z) (st : machine) :
  tx_buffer (uart_nonblocking_write byte st) = u8 byte /\
  trace (uart_nonblocking_write byte st) = trace st ++ [EvWrite DATA (u8 byte)] /\
  (forall r, r <> INTFLAG -> regs (uart_nonblocking_write byte st) r = regs st r).
Proof.
  munfold. msimpl. repeat split.
  - unfold u16, u8. apply Z.mod_small.
    pose proof (Z.mod_pos_bound byte (2 ^ 8)). lia.
  - intros r Hr. destruct r; msimpl; congruence.
Qed.

Lemma uart_nonblocking_write_unconditional_witness :
  tx_buffer (uart_nonblocking_write 0x42 tx_in_flight) = 0x42 /\
  regs (uart_nonblocking_write 0x42 tx_in_flight) CTRLA = regs tx_in_flight CTRLA.
Proof.
  destruct (uart_nonblocking_write_unconditional 0x42 tx_in_flight) as (H1 & _ & H3).
  split; [exact H1 | apply H3; discriminate].
Defined.

(** * Further properties of the driver *)

(** ** Pin multiplexing *)

(** X1: Of two calls of [_uart_configure_pinmux] the second decides: the pin
    multiplexer is as if only the second had been made. *)
Theorem pinmux_last_call_wins (b1 b2 : bool) (st : machine) :
  pinmux (_uart_configure_pinmux b2 (_uart_configure_pinmux b1 st)) =
  pinmux (_uart_configure_pinmux b2 st).
Proof.
  unfold _uart_configure_pinmux, gpio_set_pin_function.
  destruct b1, b2; msimpl; apply map_eq; intros pin;
    (destruct (decide (pin = PIN_PA01)) as [-> | H1];
      [rewrite !lookup_insert_eq; reflexivity |]);
    rewrite !(lookup_insert_ne _ PIN_PA01) by congruence;
    (destruct (decide (pin = PIN_PA00)) as [-> | H0];
      [rewrite !lookup_insert_eq; reflexivity |]);
    rewrite !(lookup_insert_ne _ PIN_PA00) by congruence;
    rewrite !(lookup_insert_ne _ PIN_PA01) by congruence;
    rewrite !(lookup_insert_ne _ PIN_PA00) by congruence; reflexivity.
Qed.

(** X2: [_uart_configure_pinmux] changes the role of PA00 and PA01 and of no
    other pin; it writes no register of the peripheral and leaves the
    interrupt line, the transmit data and the Active flag alone. *)
Theorem pinmux_touches_two_pins (b : bool) (pin : N) (st : machine) :
  pin <> PIN_PA00 -> pin <> PIN_PA01 ->
  pin_role pin (_uart_configure_pinmux b st) = pin_role pin st /\
  regs (_uart_configure_pinmux b st) = regs st /\
  nvic_sercom1 (_uart_configure_pinmux b st) = nvic_sercom1 st /\
  tx_buffer (_uart_configure_pinmux b st) = tx_buffer st /\
  uart_active (_uart_configure_pinmux b st) = uart_active st.
Proof.
  intros H0 H1. unfold pin_role, _uart_configure_pinmux, gpio_set_pin_function.
  destruct b; msimpl; repeat split;
    rewrite !lookup_insert_ne by congruence; reflexivity.
Qed.

Lemma pinmux_touches_two_pins_witness :
  pin_role 5%N (_uart_configure_pinmux true (power_on 0)) = pin_role 5%N (power_on 0) /\
  regs (_uart_configure_pinmux true (power_on 0)) = regs (power_on 0) /\
  nvic_sercom1 (_uart_configure_pinmux true (power_on 0)) = nvic_sercom1 (power_on 0) /\
  tx_buffer (_uart_configure_pinmux true (power_on 0)) = tx_buffer (power_on 0) /\
  uart_active (_uart_configure_pinmux true (power_on 0)) = uart_active (power_on 0).
Proof.
  apply (pinmux_touches_two_pins true 5%N (power_on 0)); discriminate.
Defined.

(** ** The transmit path *)

(** [uart_ready_for_write] looks at data-register-empty and at nothing
    else. *)
Lemma ready_testbit st :
  uart_ready_for_write st = Z.testbit (regs st INTFLAG) INTFLAG_DRE_Pos.
Proof.
  unfold uart_ready_for_write, SERCOM_USART_INTFLAG_DRE, INTFLAG_DRE_Pos.
  change (Z.shiftl 1 0) with (Z.ones 1).
  rewrite Z.land_ones by lia. change (2 ^ 1) with 2.
  rewrite Zmod_odd, Z.bit0_odd. destruct (Z.odd (regs st INTFLAG)); reflexivity.
Qed.

Lemma hw_tick_tx st :
  tx_pending (hw_tick st) = pred (tx_pending st) /\
  tx_buffer (hw_tick st) = tx_buffer st /\
  fully_enabled (hw_tick st) = CTRLA_ENABLE st && Nat.eqb (pred (sync_enable st)) 0 /\
  uart_ready_for_write (hw_tick st) =
    uart_ready_for_write st ||
    (Nat.eqb (pred (tx_pending st)) 0 && (CTRLA_ENABLE st && Nat.eqb (pred (sync_enable st)) 0)).
Proof.
  rewrite !ready_testbit. unfold hw_tick, fully_enabled, CTRLA_ENABLE. msimpl.
  destruct (Nat.eqb (pred (tx_pending st)) 0) eqn:E1;
    destruct (Z.testbit (regs st CTRLA) CTRLA_ENABLE_Pos) eqn:E2;
    destruct (Nat.eqb (pred (sync_enable st)) 0) eqn:E3; msimpl;
    rewrite ?E2, ?E3, ?orb_false_r; repeat split.
  rewrite testbit_set_bit by (unfold INTFLAG_DRE_Pos; lia).
  rewrite Z.eqb_refl. reflexivity.
Qed.

Lemma wait_while_some cond fuel : forall st st',
  wait_while cond fuel st = Some st' <->
  exists k, (k <= fuel)%nat /\ cond (ticks k st) = false /\
            (forall j, (j < k)%nat -> cond (ticks j st) = true) /\
            st' = ticks k st.
Proof.
  induction fuel as [| fuel IH]; intros st st'; simpl.
  - destruct (cond st) eqn:Hc; split.
    + discriminate.
    + intros (k & Hk & Hf & _). assert (k = 0%nat) as -> by lia.
      simpl in Hf. congruence.
    + intros H. injection H as <-. exists 0%nat. repeat split; [lia | exact Hc | lia].
    + intros (k & Hk & _ & _ & ->). assert (k = 0%nat) as -> by lia. reflexivity.
  - destruct (cond st) eqn:Hc; split.
    + intros H. apply IH in H as (k & Hk & Hf & Hb & ->).
      exists (S k). repeat split; [lia | exact Hf |].
      intros [| j] Hj; simpl; [exact Hc | apply Hb; lia].
    + intros (k & Hk & Hf & Hb & ->). destruct k as [| k]; simpl in *; [congruence |].
      apply IH. exists k. repeat split; [lia | exact Hf |].
      intros j Hj. apply (Hb (S j)). lia.
    + intros H. injection H as <-. exists 0%nat. repeat split; [lia | exact Hc | lia].
    + intros (k & Hk & _ & Hb & ->). destruct k as [| k]; [reflexivity |].
      specialize (Hb 0%nat ltac:(lia)). simpl in Hb. congruence.
Qed.

Lemma wait_while_none cond fuel : forall st,
  wait_while cond fuel st = None <->
  forall j, (j <= fuel)%nat -> cond (ticks j st) = true.
Proof.
  induction fuel as [| fuel IH]; intros st; simpl.
  - destruct (cond st) eqn:Hc; split; try discriminate; try reflexivity.
    + intros _ j Hj. assert (j = 0%nat) as -> by lia. exact Hc.
    + intros H. specialize (H 0%nat ltac:(lia)). simpl in H. congruence.
  - destruct (cond st) eqn:Hc; split; try discriminate.
    + intros H [| j] Hj; simpl; [exact Hc |]. apply (proj1 (IH _) H). lia.
    + intros H. apply IH. intros j Hj. apply (H (S j)). lia.
    + intros H. specialize (H 0%nat ltac:(lia)). simpl in H. congruence.
Qed.

(** X5: [uart_blocking_write] polls data-register-empty, lets time pass while
    it is clear, and writes the byte to DATA at the first moment it is set:
    it returns exactly when the flag is set within the polls it is given,
    and given [fuel] polls it is still waiting exactly when the flag has
    been clear at each of them. *)
Theorem uart_blocking_write_characterised
    (fuel : nat) (byte : Z) (st st' : machine) :
  (uart_blocking_write fuel byte st = Some st' <->
   exists k, (k <= fuel)%nat /\ uart_ready_for_write (ticks k st) = true /\
             (forall j, (j < k)%nat -> uart_ready_for_write (ticks j st) = false) /\
             st' = uart_nonblocking_write byte (ticks k st)) /\
  (uart_blocking_write fuel byte st = None <->
   forall j, (j <= fuel)%nat -> uart_ready_for_write (ticks j st) = false).
Proof.
  unfold uart_blocking_write.
  pose proof (wait_while_some (fun s => negb (uart_ready_for_write s)) fuel st) as HS.
  pose proof (wait_while_none (fun s => negb (uart_ready_for_write s)) fuel st) as HN.
  destruct (wait_while _ fuel st) as [st1 |]; split; split.
  - intros H. injection H as <-.
    destruct (proj1 (HS st1) eq_refl) as (k & Hk & Hf & Hb & ->).
    exists k. split; [exact Hk |].
    split; [apply negb_false_iff; exact Hf |]. split; [| reflexivity].
    intros j Hj. apply negb_true_iff. apply Hb. exact Hj.
  - intros (k & Hk & Hf & Hb & ->). f_equal. f_equal.
    assert (E : Some st1 = Some (ticks k st)); [| congruence].
    apply HS. exists k. repeat split; [exact Hk | rewrite Hf; reflexivity |].
    intros j Hj. rewrite (Hb j Hj). reflexivity.
  - discriminate.
  - intros H. assert (E : Some st1 = None); [| discriminate].
    apply HN. intros j Hj. rewrite (H j Hj). reflexivity.
  - discriminate.
  - intros (k & Hk & Hf & Hb & _).
    pose proof (proj1 HN eq_refl k Hk) as E. simpl in E. rewrite Hf in E. discriminate.
  - intros _ j Hj. apply negb_true_iff. apply (proj1 HN eq_refl j Hj).
  - reflexivity.
Qed.

Lemma uart_blocking_write_characterised_witness :
  uart_blocking_write 5 0x42 tx_in_flight =
  Some (uart_nonblocking_write 0x42 (ticks 2 tx_in_flight)).
Proof.
  apply (proj1 (uart_blocking_write_characterised 5 0x42 tx_in_flight _)).
  exists 2%nat. split; [lia |]. split; [vm_compute; reflexivity |].
  split; [| reflexivity].
  intros j Hj. destruct j as [| [| j]]; [vm_compute; reflexivity .. | lia].
Defined.

Lemma wait_while_exit cond fuel st :
  cond st = false -> wait_while cond fuel st = Some st.
Proof. intros H. destruct fuel; simpl; rewrite H; reflexivity. Qed.

Lemma wait_while_trace cond fuel : forall st st',
  wait_while cond fuel st = Some st' -> trace st' = trace st.
Proof.
  induction fuel as [| fuel IH]; intros st st' H; simpl in H;
    destruct (cond st); try discriminate; try (injection H as <-; reflexivity).
  apply IH in H. destruct (hw_tick_frame st) as (E & _). congruence.
Qed.

Lemma wait_ready fuel : forall st,
  fully_enabled st = true -> (tx_pending st < fuel)%nat ->
  exists st1, wait_while (fun s => negb (uart_ready_for_write s)) fuel st = Some st1.
Proof.
  induction fuel as [| fuel IH]; intros st He Hp; [lia |]. simpl.
  destruct (uart_ready_for_write st) eqn:Hr; simpl; [eauto |].
  destruct (hw_tick_tx st) as (E1 & _ & E3 & E4).
  unfold fully_enabled in He. apply andb_prop in He as [Ha Hs].
  apply Nat.eqb_eq in Hs. rewrite Ha, Hs in E3, E4. simpl in E3, E4.
  destruct (Nat.eqb (pred (tx_pending st)) 0) eqn:E0.
  - exists (hw_tick st). apply wait_while_exit. rewrite E4, Hr. reflexivity.
  - apply IH; [exact E3 |]. apply Nat.eqb_neq in E0. lia.
Qed.

Lemma u16_u8 x : u16 (u8 x) = u8 x.
Proof.
  unfold u16, u8. apply Z.mod_small.
  pose proof (Z.mod_pos_bound x (2 ^ 8)). lia.
Qed.

(** X6: On an enabled peripheral [uart_blocking_write] returns as soon as it
    is given more polls than the byte in flight needs time: it has then made
    one write to DATA, the transmit data is its byte, and
    data-register-empty is clear again. *)
Theorem uart_blocking_write_returns (fuel : nat) (byte : Z) (st : machine) :
  fully_enabled st = true -> (tx_pending st < fuel)%nat ->
  exists st', uart_blocking_write fuel byte st = Some st' /\
    tx_buffer st' = u8 byte /\
    trace st' = trace st ++ [EvWrite DATA (u8 byte)] /\
    uart_ready_for_write st' = false.
Proof.
  intros He Hp. destruct (wait_ready fuel st He Hp) as (st1 & E).
  unfold uart_blocking_write. rewrite E.
  exists (uart_nonblocking_write byte st1). split; [reflexivity |].
  apply wait_while_trace in E. rewrite ready_testbit. munfold. msimpl.
  rewrite u16_u8, E. repeat split.
  rewrite testbit_clear_bit by (unfold INTFLAG_DRE_Pos; lia).
  rewrite Z.eqb_refl. apply andb_false_r.
Qed.

Lemma uart_blocking_write_returns_witness :
  exists st', uart_blocking_write 3 0x42 tx_in_flight = Some st' /\
    tx_buffer st' = u8 0x42 /\
    trace st' = trace tx_in_flight ++ [EvWrite DATA (u8 0x42)] /\
    uart_ready_for_write st' = false.
Proof.
  apply (uart_blocking_write_returns 3 0x42 tx_in_flight).
  - vm_compute. reflexivity.
  - vm_compute. lia.
Defined.

Lemma hw_tick_tx_sound st : tx_sound st -> tx_sound (hw_tick st).
Proof.
  unfold tx_sound. destruct (hw_tick_tx st) as (E1 & _ & _ & E4).
  rewrite E1, E4. intros H Hr. apply orb_prop in Hr as [Hr | Hr].
  - rewrite (H Hr). reflexivity.
  - apply andb_prop in Hr as [Hr _]. apply Nat.eqb_eq. exact Hr.
Qed.





(** ** The receive path *)

(** X8: The handler never touches the transmit side: the transmit data, the
    byte in flight and data-register-empty are as before, as are the
    configuration registers; and whatever the state it is entered in,
    receive-complete is clear when it returns. *)
Theorem SERCOM1_Handler_leaves_transmit_alone (st : machine) :
  tx_buffer (SERCOM1_Handler st) = tx_buffer st /\
  tx_pending (SERCOM1_Handler st) = tx_pending st /\
  uart_ready_for_write (SERCOM1_Handler st) = uart_ready_for_write st /\
  regs (SERCOM1_Handler st) CTRLA = regs st CTRLA /\
  regs (SERCOM1_Handler st) CTRLB = regs st CTRLB /\
  regs (SERCOM1_Handler st) BAUD = regs st BAUD /\
  regs (SERCOM1_Handler st) INTENSET = regs st INTENSET /\
  INTFLAG_RXC (SERCOM1_Handler st) = false.
Proof.
  rewrite !ready_testbit. unfold SERCOM1_Handler.
  destruct (INTFLAG_RXC st) eqn:Hr; [| repeat split; exact Hr].
  unfold INTFLAG_RXC, read_DATA, uart_byte_received_cb. msimpl.
  rewrite !testbit_clear_bit by (unfold INTFLAG_RXC_Pos; lia).
  rewrite Z.eqb_refl, andb_false_r. repeat split.
  apply andb_true_r.
Qed.

(** ** The Active flag and the pins *)

Lemma registers_spare_pins clk baudrate :
  Forall spares_pins (reset_ops ++ config_ops clk baudrate ++ arm_ops).
Proof.
  unfold reset_ops, config_ops, arm_ops. simpl.
  repeat (apply Forall_cons; split); try apply Forall_nil; try exact I;
    intros st; unfold CTRLA_bit_ENABLE, CTRLA_bit_SWRST;
    try (destruct (write_CTRLA_effect
                     ((if false then set_bit else clear_bit) (regs st CTRLA) CTRLA_ENABLE_Pos) st)
           as (_ & _ & E1 & E2 & _); split; assumption);
    try (destruct (write_CTRLA_effect
                     ((if true then set_bit else clear_bit) (regs st CTRLA) CTRLA_ENABLE_Pos) st)
           as (_ & _ & E1 & E2 & _); split; assumption);
    try (destruct (write_CTRLA_effect (set_bit (regs st CTRLA) CTRLA_SWRST_Pos) st)
           as (_ & _ & E1 & E2 & _); split; assumption);
    try (destruct (write_CTRLA_effect CTRLA_usart st)
           as (_ & _ & E1 & E2 & _); split; assumption);
    split; reflexivity.
Qed.

(** An assertion about the Active flag and the pin multiplexer only is kept
    by the environment and by every statement that spares them. *)
Lemma pins_assertion_kept (P : bool -> gmap N Z -> Prop) :
  env_stable (fun st => P (uart_active st) (pinmux st)) /\
  forall l, Forall spares_pins l ->
            Forall (keeps (fun st => P (uart_active st) (pinmux st))) l.
Proof.
  split.
  - intros a st H. destruct (env_frame a st) as (E1 & E2 & _). rewrite E1, E2. exact H.
  - intros l Hl. induction Hl as [| o l Ho _ IH]; [apply Forall_nil; exact I |].
    apply Forall_cons. split; [| exact IH].
    destruct o as [f | cond]; simpl in *; [| exact I].
    intros st H. destruct (Ho st) as (E1 & E2). rewrite E1, E2. exact H.
Qed.

Lemma configure_tracks st : flag_tracks_pins (uart_configure_pinmux st).
Proof.
  unfold flag_tracks_pins, pins_attached, pin_role. munfold. msimpl.
  rewrite lookup_insert_ne, !lookup_insert_eq by discriminate.
  rewrite !bool_decide_eq_true_2 by reflexivity. reflexivity.
Qed.

Lemma release_tracks st : flag_tracks_pins (uart_release_pinmux st).
Proof.
  unfold flag_tracks_pins, pins_attached, pin_role. munfold. msimpl.
  rewrite lookup_insert_ne, !lookup_insert_eq by discriminate.
  rewrite bool_decide_eq_false_2 by discriminate. reflexivity.
Qed.

Lemma uart_init_ops_keep_tracking clk cfg baudrate :
  Forall (keeps flag_tracks_pins) (uart_init_ops clk cfg baudrate).
Proof.
  destruct (pins_assertion_kept (fun a m =>
    a = bool_decide (m !! PIN_PA00 = Some MUX_PA00D_SERCOM1_PAD0) &&
        bool_decide (m !! PIN_PA01 = Some MUX_PA01D_SERCOM1_PAD1))) as (_ & K).
  pose proof (K _ (registers_spare_pins clk baudrate)) as K'.
  apply Forall_app in K' as [K1 K2].
  unfold uart_init_ops, pinmux_ops. apply Forall_app. split; [exact K1 |].
  destruct cfg; [| exact K2].
  apply Forall_cons. split; [| exact K2].
  intros st _. apply configure_tracks.
Qed.

Lemma handler_keeps_tracking st :
  flag_tracks_pins st -> flag_tracks_pins (SERCOM1_Handler st).
Proof.
  intros H. unfold flag_tracks_pins, pins_attached, pin_role in *.
  destruct (INTFLAG_RXC st) eqn:Hr.
  - destruct (SERCOM1_Handler_serves st Hr) as (_ & _ & _ & E1 & E2 & _).
    rewrite E1, E2. exact H.
  - rewrite SERCOM1_Handler_idle by assumption. exact H.
Qed.

Lemma tracking_stable : env_stable flag_tracks_pins.
Proof.
  destruct (pins_assertion_kept (fun a m =>
    a = bool_decide (m !! PIN_PA00 = Some MUX_PA00D_SERCOM1_PAD0) &&
        bool_decide (m !! PIN_PA01 = Some MUX_PA01D_SERCOM1_PAD1))) as (E & _).
  exact E.
Qed.

Lemma ticks_keep_tracking k : forall st,
  flag_tracks_pins st -> flag_tracks_pins (ticks k st).
Proof.
  induction k as [| k IH]; intros st H; simpl; [exact H |].
  apply IH. apply (tracking_stable HwTick). exact H.
Qed.

(** X3: The Active flag agrees with the pin multiplexer (set exactly when both
    pins are on their SERCOM1 pads) after either pin operation, from any
    state, and when [uart_init], asked to configure the pins, is done, from
    any state and whatever the hardware and the handler did meanwhile.
    Where it agrees, it still does after the handler, after a non-blocking
    write, when [uart_blocking_write] returns, and when [uart_init] is
    done. *)
Theorem active_flag_tracks_pins (st : machine) :
  flag_tracks_pins (uart_configure_pinmux st) /\
  flag_tracks_pins (uart_release_pinmux st) /\
  (forall clk baudrate st',
     steps (uart_init_ops clk true baudrate, st) ([], st') -> flag_tracks_pins st') /\
  (flag_tracks_pins st ->
     flag_tracks_pins (SERCOM1_Handler st) /\
     (forall byte, flag_tracks_pins (uart_nonblocking_write byte st)) /\
     (forall fuel byte st',
        uart_blocking_write fuel byte st = Some st' -> flag_tracks_pins st') /\
     (forall clk cfg baudrate st',
        steps (uart_init_ops clk cfg baudrate, st) ([], st') -> flag_tracks_pins st')).
Proof.
  split; [apply configure_tracks |]. split; [apply release_tracks |]. split.
  - intros clk baudrate st' H.
    assert (G : hoare anything anything (uart_init_ops clk true baudrate)
                  flag_tracks_pins).
    { pose proof (uart_init_ops_keep_tracking clk false baudrate) as K.
      change (uart_init_ops clk false baudrate) with
        (reset_ops ++ config_ops clk baudrate ++ arm_ops) in K.
      apply Forall_app in K as [_ K].
      change (uart_init_ops clk true baudrate) with
        (reset_ops ++ [OpDo uart_configure_pinmux] ++ config_ops clk baudrate ++ arm_ops).
      apply hoare_seq with (J := anything);
        [apply hoare_keeps; auto using anything_stable, all_keep_anything |].
      apply hoare_seq with (J := flag_tracks_pins).
      - apply hoare_do;
          [apply anything_stable | apply tracking_stable | intros; exact I ..
           | intros; apply configure_tracks].
      - apply hoare_keeps; [apply tracking_stable | intros; exact I | exact K]. }
    apply (G st [] st' I H). reflexivity.
  - intros H. split; [apply handler_keeps_tracking; exact H |].
    split; [intros byte; exact H |]. split.
    + intros fuel byte st' H2. unfold uart_blocking_write in H2.
      destruct (wait_while _ fuel st) as [s |] eqn:Ew; [| discriminate].
      injection H2 as <-. apply wait_while_some in Ew as (k & _ & _ & _ & ->).
      apply (ticks_keep_tracking k st H).
    + intros clk cfg baudrate st' H1.
      assert (G : hoare flag_tracks_pins flag_tracks_pins
                    (uart_init_ops clk cfg baudrate) flag_tracks_pins).
      { apply hoare_keeps;
          [apply tracking_stable | auto | apply uart_init_ops_keep_tracking]. }
      destruct (G st [] st' H H1) as [Hs _]. exact Hs.
Qed.

Lemma active_flag_tracks_pins_witness :
  flag_tracks_pins initialised /\
  exists st', uart_blocking_write 2 0x42 initialised = Some st' /\
              flag_tracks_pins st'.
Proof.
  assert (H : flag_tracks_pins initialised).
  { apply (proj1 (proj2 (proj2 (active_flag_tracks_pins (power_on 1))))
             48000000 115200).
    apply (uart_init_steps 1). vm_compute. reflexivity. }
  split; [exact H |].
  destruct (uart_blocking_write 2 0x42 initialised) as [st' |] eqn:E;
    [| vm_compute in E; discriminate].
  exists st'. split; [reflexivity |].
  destruct (proj2 (proj2 (proj2 (active_flag_tracks_pins initialised))) H)
    as (_ & _ & B & _).
  apply (B _ _ _ E).
Defined.

(** X4: Without pin configuration [uart_init] never touches the pin
    multiplexer, at any point of any execution; with it, both pins are on
    their SERCOM1 pads when [uart_init] is done, whatever they were
    before. *)
Theorem uart_init_pins
    (clk baudrate : Z) (cfg : bool) (st st' : machine) (k : list op) :
  steps (uart_init_ops clk cfg baudrate, st) (k, st') ->
  (cfg = false -> pinmux st' = pinmux st) /\
  (cfg = true -> k = [] -> pins_attached st' = true).
Proof.
  intros H. split; intros ->.
  - destruct (pins_assertion_kept (fun _ m => m = pinmux st)) as (E & K).
    assert (G : hoare (fun s => pinmux s = pinmux st) (fun s => pinmux s = pinmux st)
                  (uart_init_ops clk false baudrate) (fun s => pinmux s = pinmux st)).
    { apply hoare_keeps; [exact E | auto | apply K; apply registers_spare_pins]. }
    destruct (G st k st' eq_refl H) as [Hs _]. exact Hs.
  - intros ->.
    destruct (pins_assertion_kept (fun _ m =>
      bool_decide (m !! PIN_PA00 = Some MUX_PA00D_SERCOM1_PAD0) &&
      bool_decide (m !! PIN_PA01 = Some MUX_PA01D_SERCOM1_PAD1) = true)) as (E & K).
    change (env_stable (fun s => pins_attached s = true)) in E.
    pose proof (K _ (registers_spare_pins clk baudrate)) as K'.
    apply Forall_app in K' as [_ K2].
    assert (G : hoare anything anything (uart_init_ops clk true baudrate)
                  (fun s => pins_attached s = true)).
    { change (uart_init_ops clk true baudrate) with
        (reset_ops ++ [OpDo uart_configure_pinmux] ++ config_ops clk baudrate ++ arm_ops).
      apply hoare_seq with (J := anything);
        [apply hoare_keeps; auto using anything_stable, all_keep_anything |].
      apply hoare_seq with (J := fun s => pins_attached s = true).
      - apply hoare_do; [apply anything_stable | exact E | intros; exact I .. |].
        intros s _. pose proof (configure_tracks s) as T.
        unfold flag_tracks_pins in T. rewrite <- T. reflexivity.
      - apply hoare_keeps; [exact E | intros; exact I | exact K2]. }
    destruct (G st [] st' I H) as [_ Hs]. apply Hs. reflexivity.
Qed.

Lemma uart_init_pins_witness : pins_attached initialised = true.
Proof.
  assert (H : steps (uart_init_ops 48000000 true 115200, power_on 1) ([], initialised)).
  { apply (uart_init_steps 1). vm_compute. reflexivity. }
  exact (proj2 (uart_init_pins 48000000 115200 true (power_on 1) initialised [] H)
           eq_refl eq_refl).
Defined.

(** ** More of the program logic *)

Section HoareMore.
Variable Safe : machine -> Prop.

(** A polling loop is left only when its condition is false. *)
Lemma hoare_wait_exit I J cond :
  env_stable I -> env_stable J ->
  (forall st, I st -> Safe st) -> (forall st, J st -> Safe st) ->
  (forall st, I st -> cond st = false -> J st) ->
  hoare Safe I [OpWait cond] J.
Proof.
  intros EI EJ SI SJ Hx.
  enough (G : forall c c', steps c c' -> forall st, c = ([OpWait cond], st) -> I st ->
              Safe (snd c') /\ (fst c' = [] -> J (snd c'))).
  { intros st k st' HI H. apply (G _ _ H st eq_refl HI). }
  intros c c' H. induction H as [c | c1 c2 c3 H12 H23 IH]; intros st Ec HI.
  - subst c. simpl. split; [auto | discriminate].
  - subst c1. inversion H12; subst.
    + assert (HJ : J st) by auto.
      destruct (steps_nil_inv J EJ _ _ H23 eq_refl HJ) as [Hk HJ']. split; auto.
    + apply (IH (env_step a st) eq_refl); auto.
Qed.

Lemma hoare_weaken I J J' l :
  hoare Safe I l J -> (forall st, J st -> J' st) -> hoare Safe I l J'.
Proof.
  intros H HJ st k st' HI S. destruct (H _ _ _ HI S) as [Hs Hk]. split; auto.
Qed.
End HoareMore.

(** ** The registers through [uart_init] *)

Lemma env_counters a st :
  (sync_swrst st = 0%nat -> sync_swrst (env_step a st) = 0%nat) /\
  (sync_enable st = 0%nat -> sync_enable (env_step a st) = 0%nat) /\
  (sync_ctrlb st = 0%nat -> sync_ctrlb (env_step a st) = 0%nat) /\
  nvic_sercom1 (env_step a st) = nvic_sercom1 st /\
  (tx_sound st -> tx_sound (env_step a st)).
Proof.
  destruct a as [| v |]; simpl.
  - destruct (hw_tick_frame st) as (_ & E0 & _ & _ & _ & _ & _ & E1 & E2 & E3).
    rewrite E0, E1, E2, E3. repeat split; try (intros ->; reflexivity).
    apply hw_tick_tx_sound.
  - destruct (hw_receive_frame v st) as (_ & E0 & _ & _ & _ & _ & E1 & E2 & E3 & _).
    rewrite E0, E1, E2, E3. repeat split; try (intros ->; reflexivity).
    unfold tx_sound. rewrite !ready_testbit. unfold hw_receive.
    destruct (_ && _); msimpl; [| auto].
    rewrite testbit_set_bit by (unfold INTFLAG_RXC_Pos; lia).
    rewrite orb_false_r. auto.
  - destruct (irq_pending st); [| repeat split; auto].
    destruct (INTFLAG_RXC st) eqn:Hr;
      [| rewrite SERCOM1_Handler_idle by assumption; repeat split; auto].
    destruct (SERCOM1_Handler_serves st Hr)
      as (_ & _ & E0 & _ & _ & _ & _ & E1 & E2 & E3).
    rewrite E0, E1, E2, E3. repeat split; try (intros ->; reflexivity).
    unfold tx_sound. rewrite !ready_testbit.
    unfold SERCOM1_Handler. rewrite Hr.
    unfold read_DATA, uart_byte_received_cb. msimpl.
    rewrite testbit_clear_bit by (unfold INTFLAG_RXC_Pos; lia).
    rewrite andb_true_r. auto.
Qed.

Lemma stage_stable a b i sw en cb nv : env_stable (stage a b i sw en cb nv).
Proof.
  intros e st (H1 & H2 & H3 & H4 & H5 & H6 & H7 & H8).
  destruct (env_frame e st) as (_ & _ & F).
  destruct (env_counters e st) as (C1 & C2 & C3 & C4 & C5).
  unfold stage. rewrite !F, C4 by discriminate. repeat split; auto.
Qed.

Lemma tx_sound_kept st st' :
  regs st' INTFLAG = regs st INTFLAG -> tx_pending st' = tx_pending st ->
  tx_sound st -> tx_sound st'.
Proof.
  intros E1 E2. unfold tx_sound. rewrite !ready_testbit, E1, E2. auto.
Qed.

(** A statement that writes neither CTRLA, CTRLB nor INTENSET and starts
    no synchronisation. *)
Lemma stage_kept a b i sw en cb nv st st' :
  regs st' CTRLA = regs st CTRLA -> regs st' CTRLB = regs st CTRLB ->
  regs st' INTENSET = regs st INTENSET -> regs st' INTFLAG = regs st INTFLAG ->
  sync_swrst st' = sync_swrst st -> sync_enable st' = sync_enable st ->
  sync_ctrlb st' = sync_ctrlb st -> nvic_sercom1 st' = nvic_sercom1 st ->
  tx_pending st' = tx_pending st ->
  stage a b i sw en cb nv st -> stage a b i sw en cb nv st'.
Proof.
  intros E1 E2 E3 E4 E5 E6 E7 E8 E9. unfold stage, tx_sound.
  rewrite !ready_testbit, E1, E2, E3, E4, E5, E6, E7, E8, E9. auto.
Qed.

(** A write to CTRLA that does not request a reset. *)
Lemma write_CTRLA_plain v st :
  Z.testbit v CTRLA_SWRST_Pos = false ->
  regs (write_CTRLA v st) CTRLA = u32 v /\
  (forall r, r <> CTRLA -> regs (write_CTRLA v st) r = regs st r) /\
  sync_swrst (write_CTRLA v st) = sync_swrst st /\
  sync_ctrlb (write_CTRLA v st) = sync_ctrlb st /\
  (Z.testbit v CTRLA_ENABLE_Pos = CTRLA_ENABLE st ->
     sync_enable (write_CTRLA v st) = sync_enable st) /\
  nvic_sercom1 (write_CTRLA v st) = nvic_sercom1 st /\
  tx_pending (write_CTRLA v st) = tx_pending st.
Proof.
  intros Hs. unfold write_CTRLA, CTRLA_ENABLE. rewrite Hs. msimpl.
  destruct (Bool.eqb _ _) eqn:Hc; msimpl; repeat split; try reflexivity.
  - intros r Hr. destruct r; msimpl; congruence.
  - intros r Hr. destruct r; msimpl; congruence.
  - intros He. rewrite He in Hc. rewrite Bool.eqb_reflx in Hc. discriminate.
Qed.

Lemma swrst_stage st :
  stage 0 0 0 false true true false (CTRLA_bit_SWRST st).
Proof.
  unfold CTRLA_bit_SWRST, write_CTRLA.
  rewrite testbit_set_bit by (unfold CTRLA_SWRST_Pos; lia).
  rewrite Z.eqb_refl, orb_true_r. unfold stage, tx_sound. rewrite ready_testbit.
  msimpl. repeat split; try discriminate.
Qed.

Lemma quiet_ops_keep_stage a b i sw en cb nv clk baudrate cfg :
  Forall (keeps (stage a b i sw en cb nv))
    ([OpWait (fun st => SYNCBUSY_SWRST st || SYNCBUSY_ENABLE st)] ++ pinmux_ops cfg ++
     [OpDo _pm_enable_bus_clock; OpDo _gclk_enable_channel]) /\
  keeps (stage a b i sw en cb nv) (OpDo (write_BAUD (Baud.baud clk baudrate))).
Proof.
  unfold pinmux_ops. split;
    [destruct cfg; repeat (apply Forall_cons; split); try apply Forall_nil; try exact I |];
    intros st; apply stage_kept; reflexivity.
Qed.

Lemma uart_init_ops_stages clk cfg baudrate :
  uart_init_ops clk cfg baudrate =
  [OpWait SYNCBUSY_ENABLE; OpDo (CTRLA_bit_ENABLE false); OpWait SYNCBUSY_SWRST] ++
  [OpDo CTRLA_bit_SWRST] ++ [OpWait SYNCBUSY_SWRST] ++
  ([OpWait (fun st => SYNCBUSY_SWRST st || SYNCBUSY_ENABLE st)] ++ pinmux_ops cfg ++
   [OpDo _pm_enable_bus_clock; OpDo _gclk_enable_channel]) ++
  [OpDo (write_CTRLA CTRLA_usart)] ++
  [OpDo (write_BAUD (Baud.baud clk baudrate))] ++
  [OpDo (write_CTRLB CTRLB_usart)] ++ [OpWait SYNCBUSY_CTRLB] ++
  [OpDo (write_INTENSET SERCOM_USART_INTENSET_RXC)] ++
  [OpDo NVIC_EnableIRQ] ++
  [OpDo (CTRLA_bit_ENABLE true)] ++ [OpWait SYNCBUSY_ENABLE].
Proof. unfold uart_init_ops, pinmux_ops. destruct cfg; reflexivity. Qed.

Lemma counter_clear n : negb (Nat.eqb n 0) = false -> n = 0%nat.
Proof. destruct n; [reflexivity | discriminate]. Qed.

Lemma uart_init_stages clk cfg baudrate :
  hoare anything anything (uart_init_ops clk cfg baudrate)
    (stage (u32 (set_bit (u32 CTRLA_usart) CTRLA_ENABLE_Pos)) (u32 CTRLB_usart)
           (Z.lor 0 (u8 SERCOM_USART_INTENSET_RXC)) true true true true).
Proof.
  assert (T : forall P : machine -> Prop, forall st, P st -> anything st)
    by (intros; exact I).
  destruct (quiet_ops_keep_stage 0 0 0 true true true false clk baudrate cfg) as (K1 & _).
  destruct (quiet_ops_keep_stage (u32 CTRLA_usart) 0 0 true true true false
              clk baudrate cfg) as (_ & K2).
  rewrite uart_init_ops_stages.
  apply hoare_seq with (J := anything);
    [apply hoare_keeps; auto using anything_stable, all_keep_anything |].
  apply hoare_seq with (J := stage 0 0 0 false true true false).
  { apply hoare_do; eauto using anything_stable, stage_stable.
    intros st _. apply swrst_stage. }
  apply hoare_seq with (J := stage 0 0 0 true true true false).
  { apply hoare_wait_exit; eauto using stage_stable.
    intros st (H1 & H2 & H3 & H4 & H5 & H6 & H7 & H8) Hc.
    apply counter_clear in Hc. repeat split; auto. }
  apply hoare_seq with (J := stage 0 0 0 true true true false).
  { apply hoare_keeps; eauto using stage_stable. }
  apply hoare_seq with (J := stage (u32 CTRLA_usart) 0 0 true true true false).
  { apply hoare_do; eauto using stage_stable.
    intros st (H1 & H2 & H3 & H4 & H5 & H6 & H7 & H8).
    assert (He : Z.testbit CTRLA_usart CTRLA_ENABLE_Pos = CTRLA_ENABLE st)
      by (unfold CTRLA_ENABLE; rewrite H1; reflexivity).
    destruct (write_CTRLA_plain CTRLA_usart st eq_refl) as (R & Ro & S1 & S2 & S3 & N & P).
    specialize (S3 He).
    assert (HT : tx_sound (write_CTRLA CTRLA_usart st))
      by (apply (tx_sound_kept st); [apply Ro; discriminate | exact P | exact H8]).
    unfold stage. rewrite R, !Ro, S1, S2, S3, N by discriminate.
    repeat split; auto. }
  apply hoare_seq with (J := stage (u32 CTRLA_usart) 0 0 true true true false).
  { apply hoare_do; eauto using stage_stable. }
  apply hoare_seq with (J := stage (u32 CTRLA_usart) (u32 CTRLB_usart) 0 true true false false).
  { apply hoare_do; eauto using stage_stable.
    intros st (H1 & H2 & H3 & H4 & H5 & H6 & H7 & H8).
    assert (HT : tx_sound (write_CTRLB CTRLB_usart st))
      by (apply (tx_sound_kept st); [reflexivity | reflexivity | exact H8]).
    unfold stage, write_CTRLB in *. msimpl.
    repeat split; auto; discriminate. }
  apply hoare_seq with (J := stage (u32 CTRLA_usart) (u32 CTRLB_usart) 0 true true true false).
  { apply hoare_wait_exit; eauto using stage_stable.
    intros st (H1 & H2 & H3 & H4 & H5 & H6 & H7 & H8) Hc.
    apply counter_clear in Hc. repeat split; auto. }
  apply hoare_seq with (J := stage (u32 CTRLA_usart) (u32 CTRLB_usart)
                                   (Z.lor 0 (u8 SERCOM_USART_INTENSET_RXC))
                                   true true true false).
  { apply hoare_do; eauto using stage_stable.
    intros st (H1 & H2 & H3 & H4 & H5 & H6 & H7 & H8).
    assert (HT : tx_sound (write_INTENSET SERCOM_USART_INTENSET_RXC st))
      by (apply (tx_sound_kept st); [reflexivity | reflexivity | exact H8]).
    unfold stage, write_INTENSET in *. msimpl.
    rewrite H3. repeat split; auto. }
  apply hoare_seq with (J := stage (u32 CTRLA_usart) (u32 CTRLB_usart)
                                   (Z.lor 0 (u8 SERCOM_USART_INTENSET_RXC))
                                   true true true true).
  { apply hoare_do; eauto using stage_stable.
    intros st (H1 & H2 & H3 & H4 & H5 & H6 & H7 & H8).
    assert (HT : tx_sound (NVIC_EnableIRQ st))
      by (apply (tx_sound_kept st); [reflexivity | reflexivity | exact H8]).
    unfold stage, NVIC_EnableIRQ in *. msimpl.
    repeat split; auto. }
  apply hoare_seq with (J := stage (u32 (set_bit (u32 CTRLA_usart) CTRLA_ENABLE_Pos))
                                   (u32 CTRLB_usart)
                                   (Z.lor 0 (u8 SERCOM_USART_INTENSET_RXC))
                                   true false true true).
  { apply hoare_do; eauto using stage_stable.
    intros st (H1 & H2 & H3 & H4 & H5 & H6 & H7 & H8).
    unfold CTRLA_bit_ENABLE. rewrite H1.
    destruct (write_CTRLA_plain (set_bit (u32 CTRLA_usart) CTRLA_ENABLE_Pos) st eq_refl)
      as (R & Ro & S1 & S2 & _ & N & P).
    assert (HT : tx_sound (write_CTRLA (set_bit (u32 CTRLA_usart) CTRLA_ENABLE_Pos) st))
      by (apply (tx_sound_kept st); [apply Ro; discriminate | exact P | exact H8]).
    unfold stage. rewrite R, !Ro, S1, S2, N by discriminate.
    repeat split; auto; discriminate. }
  apply hoare_wait_exit; eauto using stage_stable.
  intros st (H1 & H2 & H3 & H4 & H5 & H6 & H7 & H8) Hc.
  apply counter_clear in Hc. repeat split; auto.
Qed.

Lemma stage_operational st :
  stage (u32 (set_bit (u32 CTRLA_usart) CTRLA_ENABLE_Pos)) (u32 CTRLB_usart)
        (Z.lor 0 (u8 SERCOM_USART_INTENSET_RXC)) true true true true st ->
  operational st /\ rx_ready st.
Proof.
  intros (H1 & H2 & H3 & H4 & H5 & H6 & H7 & H8).
  unfold operational, rx_ready, fully_enabled, CTRLA_ENABLE, INTENSET_RXC,
    SYNCBUSY_SWRST, SYNCBUSY_ENABLE, SYNCBUSY_CTRLB.
  rewrite H1, H2, H3, H4, H5, H6, H7 by reflexivity.
  repeat split; try exact H8; vm_compute; reflexivity.
Qed.

(** X9: Whatever state [uart_init] is entered in, and whatever the hardware
    and the handler do while it runs, it leaves the same configuration
    behind: CTRLA holds the USART mode word with ENABLE set, CTRLB enables
    transmitter and receiver with 8-bit characters, receive-complete is the
    only interrupt unmasked, the line is enabled at the controller, no
    synchronisation is pending, and the peripheral is fully enabled. *)
Theorem uart_init_leaves_operational
    (clk baudrate : Z) (cfg : bool) (st st' : machine) :
  steps (uart_init_ops clk cfg baudrate, st) ([], st') ->
  operational st' /\ fully_enabled st' = true.
Proof.
  intros H.
  destruct (uart_init_stages clk cfg baudrate st [] st' I H) as (_ & Hs).
  destruct (stage_operational st' (Hs eq_refl)) as (Ho & Hr & _).
  split; assumption.
Qed.

Lemma uart_init_leaves_operational_witness :
  operational initialised /\ fully_enabled initialised = true.
Proof.
  apply (uart_init_leaves_operational 48000000 115200 true (power_on 1) initialised).
  apply (uart_init_steps 1). vm_compute. reflexivity.
Defined.

Lemma u16_idem x : u16 (u16 x) = u16 x.
Proof. unfold u16. apply Z.mod_mod. lia. Qed.

Lemma rx_ready_delivers vs : forall st,
  rx_ready st ->
  trace (env_run (arrivals vs) st) = trace st ++ deliveries vs.
Proof.
  induction vs as [| v vs IH]; intros st (He & Hb & Hn & Hi); simpl.
  - symmetry. apply app_nil_r.
  - destruct (hw_receive_raises v st He Hb) as (R1 & R2 & R3).
    destruct (hw_receive_frame v st) as (_ & N & _ & _ & _ & F & _ & S & _).
    set (st1 := hw_receive v st) in *.
    assert (Hp : irq_pending st1 = true).
    { unfold irq_pending. rewrite N, Hn. simpl.
      apply negb_true_iff. apply Z.eqb_neq. intros E.
      assert (B : Z.testbit (Z.land (regs st1 INTFLAG) (regs st1 INTENSET))
                    INTFLAG_RXC_Pos = true).
      { rewrite Z.land_spec. unfold INTFLAG_RXC in R1. rewrite R1.
        rewrite F by discriminate. exact Hi. }
      rewrite E in B. rewrite Z.testbit_0_l in B. discriminate. }
    rewrite Hp.
    destruct (SERCOM1_Handler_serves st1 R1)
      as (T & _ & N' & _ & _ & _ & F' & _ & S' & _).
    fold (env_run (arrivals vs) (SERCOM1_Handler st1)).
    rewrite IH.
    + rewrite T, R2, R3, u16_idem, u8_u16, <- app_assoc. reflexivity.
    + unfold rx_ready, fully_enabled, CTRLA_ENABLE, INTENSET_RXC in *.
      rewrite S', N', !F', S, N, !F by discriminate. auto.
Qed.

(** X10: After [uart_init], characters that arrive one after the other, each
    served by the interrupt before the next arrives, are all handed to the
    callback, in order, each with its low 8 bits, and each after exactly one
    read of DATA; [uart_init] gets there once its polling loops are given
    enough polls. *)
Theorem uart_init_then_bytes_delivered
    (clk baudrate : Z) (cfg : bool) (n fuel : nat) (st : machine) (vs : list Z) :
  within n st -> (n <= fuel)%nat ->
  exists st', uart_init fuel clk cfg baudrate st = Some st' /\
    trace (env_run (arrivals vs) st') = trace st' ++ deliveries vs.
Proof.
  intros Hw Hn.
  destruct (uart_init_terminates n fuel clk cfg baudrate st Hw Hn) as (st' & E).
  exists st'. split; [exact E |]. apply uart_init_steps in E.
  destruct (uart_init_stages clk cfg baudrate st [] st' I E) as (_ & Hs).
  destruct (stage_operational st' (Hs eq_refl)) as (_ & Hr).
  apply rx_ready_delivers. exact Hr.
Qed.

Lemma uart_init_then_bytes_delivered_witness :
  exists st', uart_init 2 48000000 true 115200 (power_on 2) = Some st' /\
    trace (env_run (arrivals [0x48; 0x169]) st') =
    trace st' ++ deliveries [0x48; 0x169].
Proof.
  apply (uart_init_then_bytes_delivered 48000000 115200 true 2 2 (power_on 2)).
  - unfold within. simpl. lia.
  - lia.
Defined.

Lemma unlocked_stable : env_stable unlocked.
Proof.
  intros a st (H1 & H2 & H3 & H4).
  destruct (env_frame a st) as (_ & _ & F).
  destruct (env_counters a st) as (C1 & C2 & _).
  unfold unlocked, CTRLA_ENABLE in *. rewrite F by discriminate. auto.
Qed.

Lemma config_prefix_keeps_unlocked clk baudrate cfg j :
  (j <= 4)%nat ->
  Forall (keeps unlocked)
    ([OpWait (fun st => SYNCBUSY_SWRST st || SYNCBUSY_ENABLE st)] ++ pinmux_ops cfg ++
     firstn j (config_ops clk baudrate)).
Proof.
  intros Hj.
  assert (M : keeps unlocked (OpDo (write_CTRLA CTRLA_usart))).
  { intros st (H1 & H2 & H3 & H4).
    assert (He : Z.testbit CTRLA_usart CTRLA_ENABLE_Pos = CTRLA_ENABLE st)
      by (rewrite H1; reflexivity).
    destruct (write_CTRLA_plain CTRLA_usart st eq_refl) as (R & _ & S1 & _ & S3 & _).
    unfold unlocked, CTRLA_ENABLE. rewrite R, S1, (S3 He). repeat split; assumption. }
  unfold pinmux_ops, config_ops.
  destruct j as [| [| [| [| [| j]]]]]; [.. | lia]; destruct cfg; simpl;
    repeat (apply Forall_cons; split); try apply Forall_nil; try exact I;
    try exact M; intros st H; exact H.
Qed.

(** X11: Every configuration write of [uart_init] (mode, baud divisor, framing)
    finds the peripheral disabled, with neither a reset nor an enabling in
    progress: this holds where each of the first five statements of lines
    95-129 starts, in every execution and from every entry state. *)
Theorem uart_init_configures_while_disabled
    (clk baudrate : Z) (cfg : bool) (j : nat) (st st' : machine) :
  (j <= 4)%nat ->
  steps (reset_ops ++ pinmux_ops cfg ++ firstn j (config_ops clk baudrate), st) ([], st') ->
  configurable st'.
Proof.
  intros Hj H.
  assert (T : forall P : machine -> Prop, forall s, P s -> anything s)
    by (intros; exact I).
  assert (G : hoare anything anything
                (reset_ops ++ pinmux_ops cfg ++ firstn j (config_ops clk baudrate))
                unlocked).
  { change (reset_ops ++ pinmux_ops cfg ++ firstn j (config_ops clk baudrate)) with
      ([OpWait SYNCBUSY_ENABLE; OpDo (CTRLA_bit_ENABLE false); OpWait SYNCBUSY_SWRST] ++
       [OpDo CTRLA_bit_SWRST] ++ [OpWait SYNCBUSY_SWRST] ++
       ([OpWait (fun st => SYNCBUSY_SWRST st || SYNCBUSY_ENABLE st)] ++ pinmux_ops cfg ++
        firstn j (config_ops clk baudrate))).
    apply hoare_seq with (J := anything);
      [apply hoare_keeps; auto using anything_stable, all_keep_anything |].
    apply hoare_seq with (J := stage 0 0 0 false true true false).
    { apply hoare_do; eauto using anything_stable, stage_stable.
      intros s _. apply swrst_stage. }
    apply hoare_seq with (J := unlocked).
    { apply hoare_wait_exit; eauto using stage_stable, unlocked_stable.
      intros s (H1 & H2 & H3 & H4 & H5 & H6 & H7 & H8) Hc.
      apply counter_clear in Hc. unfold unlocked, CTRLA_ENABLE. rewrite H1.
      repeat split; auto. }
    apply hoare_keeps; eauto using unlocked_stable, config_prefix_keeps_unlocked. }
  destruct (G st [] st' I H) as (_ & Hu).
  destruct (Hu eq_refl) as (H1 & _ & H3 & H4).
  unfold configurable, SYNCBUSY_SWRST, SYNCBUSY_ENABLE. rewrite H3, H4. auto.
Qed.

Lemma uart_init_configures_while_disabled_witness :
  exists st', run 2 (reset_ops ++ pinmux_ops true ++ firstn 3 (config_ops 48000000 115200))
                (power_on 2) = Some st' /\ configurable st'.
Proof.
  destruct (run 2 (reset_ops ++ pinmux_ops true ++ firstn 3 (config_ops 48000000 115200))
              (power_on 2)) as [st' |] eqn:E; [| vm_compute in E; discriminate].
  exists st'. split; [reflexivity |].
  apply (uart_init_configures_while_disabled 48000000 115200 true 3 (power_on 2) st');
    [lia | apply (run_steps 2); exact E].
Defined.

(** ** The accesses of [uart_init] *)

Lemma own_app l1 l2 : own (l1 ++ l2) = own l1 ++ own l2.
Proof. apply List.filter_app. Qed.

Lemma logged_stable st0 T c : env_stable (logged st0 T c).
Proof.
  intros a st ((evs & H1 & H2) & H3).
  destruct (env_effect a st) as (_ & E & [Et | (_ & _ & Et)]);
    (split; [| rewrite E; exact H3]).
  - exists evs. rewrite Et. auto.
  - exists (evs ++ [EvReadData (u16 (regs st DATA)); EvCallback (u8 (regs st DATA))]).
    split; [rewrite Et, H1, app_assoc; reflexivity |].
    rewrite own_app, H2. apply app_nil_r.
Qed.

(** A statement that, with [c] in CTRLA, makes the accesses [E] and leaves
    [c'] in CTRLA. *)
Lemma hoare_log st0 T c E c' f :
  own E = E ->
  (forall st, regs st CTRLA = c ->
              trace (f st) = trace st ++ E /\ regs (f st) CTRLA = c') ->
  hoare anything (logged st0 T c) [OpDo f] (logged st0 (T ++ E) c').
Proof.
  intros HE Hf.
  apply hoare_do; try (intros; exact I); try apply logged_stable.
  intros st ((evs & H1 & H2) & H3). destruct (Hf st H3) as (E1 & E2).
  split; [| exact E2]. exists (evs ++ E). split.
  - rewrite E1, H1, app_assoc. reflexivity.
  - rewrite own_app, H2, HE. reflexivity.
Qed.

Lemma hoare_log_wait st0 T c cond :
  hoare anything (logged st0 T c) [OpWait cond] (logged st0 T c).
Proof. apply hoare_wait; [apply logged_stable | intros; exact I]. Qed.

(** When [uart_init] is done, the log since entry, without what the handler
    added, is the list of lines 75-144. *)
Lemma init_log_complete
    (clk baudrate : Z) (cfg : bool) (st0 st : machine) :
  steps (uart_init_ops clk cfg baudrate, st0) ([], st) ->
  exists evs, trace st = trace st0 ++ evs /\
              own evs = uart_init_accesses clk cfg baudrate (regs st0 CTRLA).
Proof.
  intros H.
  set (c0 := regs st0 CTRLA).
  set (v1 := clear_bit c0 CTRLA_ENABLE_Pos).
  set (c1 := if Z.testbit v1 CTRLA_SWRST_Pos then 0 else u32 v1).
  set (v2 := set_bit c1 CTRLA_SWRST_Pos).
  set (gp := if cfg then [EvGpioSetPinFunction PIN_PA00 MUX_PA00D_SERCOM1_PAD0;
                          EvGpioSetPinFunction PIN_PA01 MUX_PA01D_SERCOM1_PAD1]
             else []).
  set (ven := set_bit (u32 CTRLA_usart) CTRLA_ENABLE_Pos).
  assert (G : hoare anything (logged st0 [] c0) (uart_init_ops clk cfg baudrate)
    (logged st0
       ((((((((((([] ++ [EvWrite CTRLA v1]) ++ [EvWrite CTRLA v2]) ++ gp) ++
              [EvPmEnableBusClock]) ++ [EvGclkEnableChannel]) ++
            [EvWrite CTRLA CTRLA_usart]) ++ [EvWrite BAUD (Baud.baud clk baudrate)]) ++
          [EvWrite CTRLB CTRLB_usart]) ++ [EvWrite INTENSET SERCOM_USART_INTENSET_RXC]) ++
        [EvNvicEnableIRQ]) ++ [EvWrite CTRLA ven])
       (u32 ven))).
  { replace (uart_init_ops clk cfg baudrate) with
      ([OpWait SYNCBUSY_ENABLE] ++ [OpDo (CTRLA_bit_ENABLE false)] ++
       [OpWait SYNCBUSY_SWRST] ++ [OpDo CTRLA_bit_SWRST] ++
       [OpWait SYNCBUSY_SWRST] ++
       [OpWait (fun st => SYNCBUSY_SWRST st || SYNCBUSY_ENABLE st)] ++
       pinmux_ops cfg ++
       [OpDo _pm_enable_bus_clock] ++ [OpDo _gclk_enable_channel] ++
       [OpDo (write_CTRLA CTRLA_usart)] ++
       [OpDo (write_BAUD (Baud.baud clk baudrate))] ++
       [OpDo (write_CTRLB CTRLB_usart)] ++ [OpWait SYNCBUSY_CTRLB] ++
       [OpDo (write_INTENSET SERCOM_USART_INTENSET_RXC)] ++
       [OpDo NVIC_EnableIRQ] ++
       [OpDo (CTRLA_bit_ENABLE true)] ++ [OpWait SYNCBUSY_ENABLE])
      by (unfold uart_init_ops, pinmux_ops; destruct cfg; reflexivity).
    eapply hoare_seq; [apply hoare_log_wait |].
    eapply hoare_seq.
    { apply (hoare_log st0 [] c0 [EvWrite CTRLA v1] c1); [reflexivity |].
      intros s Hs. unfold CTRLA_bit_ENABLE. rewrite Hs. fold v1.
      destruct (write_CTRLA_effect v1 s) as (E1 & _ & _ & _ & _ & R1 & R0).
      split; [exact E1 |]. unfold c1.
      destruct (Z.testbit v1 CTRLA_SWRST_Pos); [apply R1 | apply R0]; reflexivity. }
    eapply hoare_seq; [apply hoare_log_wait |].
    eapply hoare_seq.
    { apply (hoare_log st0 _ c1 [EvWrite CTRLA v2] 0); [reflexivity |].
      intros s Hs. unfold CTRLA_bit_SWRST. rewrite Hs. fold v2.
      destruct (write_CTRLA_effect v2 s) as (E1 & _ & _ & _ & _ & R1 & _).
      split; [exact E1 |]. apply R1. unfold v2.
      rewrite testbit_set_bit by (unfold CTRLA_SWRST_Pos; lia).
      rewrite Z.eqb_refl. apply orb_true_r. }
    eapply hoare_seq; [apply hoare_log_wait |].
    eapply hoare_seq; [apply hoare_log_wait |].
    apply hoare_seq with (J := logged st0 ((([] ++ [EvWrite CTRLA v1]) ++
                                            [EvWrite CTRLA v2]) ++ gp) 0).
    { unfold pinmux_ops, gp. destruct cfg.
      - apply (hoare_log st0 _ 0 _ 0); [reflexivity |].
        intros s Hs. munfold. msimpl. rewrite <- app_assoc. auto.
      - rewrite app_nil_r. apply hoare_nil; [apply logged_stable | intros; exact I]. }
    eapply hoare_seq.
    { apply (hoare_log st0 _ 0 [EvPmEnableBusClock] 0); [reflexivity |].
      intros s Hs. auto. }
    eapply hoare_seq.
    { apply (hoare_log st0 _ 0 [EvGclkEnableChannel] 0); [reflexivity |].
      intros s Hs. auto. }
    eapply hoare_seq.
    { apply (hoare_log st0 _ 0 [EvWrite CTRLA CTRLA_usart] (u32 CTRLA_usart));
        [reflexivity |].
      intros s Hs.
      destruct (write_CTRLA_effect CTRLA_usart s) as (E1 & _ & _ & _ & _ & _ & R0).
      split; [exact E1 | apply (R0 eq_refl)]. }
    eapply hoare_seq.
    { apply (hoare_log st0 _ (u32 CTRLA_usart)
               [EvWrite BAUD (Baud.baud clk baudrate)] (u32 CTRLA_usart)); [reflexivity |].
      intros s Hs. auto. }
    eapply hoare_seq.
    { apply (hoare_log st0 _ (u32 CTRLA_usart)
               [EvWrite CTRLB CTRLB_usart] (u32 CTRLA_usart)); [reflexivity |].
      intros s Hs. auto. }
    eapply hoare_seq; [apply hoare_log_wait |].
    eapply hoare_seq.
    { apply (hoare_log st0 _ (u32 CTRLA_usart)
               [EvWrite INTENSET SERCOM_USART_INTENSET_RXC] (u32 CTRLA_usart));
        [reflexivity |].
      intros s Hs. auto. }
    eapply hoare_seq.
    { apply (hoare_log st0 _ (u32 CTRLA_usart) [EvNvicEnableIRQ] (u32 CTRLA_usart));
        [reflexivity |].
      intros s Hs. auto. }
    eapply hoare_seq.
    { apply (hoare_log st0 _ (u32 CTRLA_usart) [EvWrite CTRLA ven] (u32 ven));
        [reflexivity |].
      intros s Hs. unfold CTRLA_bit_ENABLE. rewrite Hs. fold ven.
      destruct (write_CTRLA_effect ven s) as (E1 & _ & _ & _ & _ & _ & R0).
      split; [exact E1 | apply (R0 eq_refl)]. }
    apply hoare_log_wait. }
  assert (H0 : logged st0 [] c0 st0).
  { split; [| reflexivity]. exists []. split; [symmetry; apply app_nil_r | reflexivity]. }
  destruct (G st0 [] st H0 H) as (_ & Hl).
  destruct (Hl eq_refl) as ((evs & E1 & E2) & _).
  exists evs. split; [exact E1 |]. rewrite E2.
  unfold uart_init_accesses, gp. destruct cfg; reflexivity.
Qed.

(** *** Executions with their accesses *)

Lemma added_app st st' E : trace st' = trace st ++ E -> added st st' = E.
Proof. intros H. unfold added. rewrite H. apply drop_app_length. Qed.

(** [performs] has the executions of [steps], no more and no fewer. *)
Lemma performs_steps c l c' : performs c l c' -> steps c c'.
Proof.
  induction 1 as [c | f k st l c _ IH | cond k st l c Hc _ IH | a k st l c _ IH].
  - apply steps_refl.
  - eapply rtc_l; [apply step_do | exact IH].
  - eapply rtc_l; [apply step_exit; exact Hc | exact IH].
  - eapply rtc_l; [apply step_env | exact IH].
Qed.

Lemma steps_performs c c' : steps c c' -> exists l, performs c l c'.
Proof.
  induction 1 as [c | c1 c2 c3 H12 _ (l & IH)].
  - exists []. apply perf_refl.
  - destruct H12 as [f k st | cond k st Hc | a k st].
    + exists (added st (f st) ++ l). apply perf_do. exact IH.
    + exists l. apply perf_exit; assumption.
    + exists l. apply (perf_env a). exact IH.
Qed.

Lemma performs_trans c1 l1 c2 : performs c1 l1 c2 ->
  forall l2 c3, performs c2 l2 c3 -> performs c1 (l1 ++ l2) c3.
Proof.
  induction 1 as [c | f k st l c _ IH | cond k st l c Hc _ IH | a k st l c _ IH];
    intros l2 c3 H2.
  - exact H2.
  - rewrite <- app_assoc. apply perf_do. apply IH. exact H2.
  - apply perf_exit; [exact Hc | apply IH; exact H2].
  - apply (perf_env a). apply IH. exact H2.
Qed.

(** What is left of the program is a part of the program. *)
Lemma performs_rest (P : op -> Prop) c l c' :
  performs c l c' -> Forall P (fst c) -> Forall P (fst c').
Proof.
  induction 1 as [c | f k st l c _ IH | cond k st l c Hc _ IH | a k st l c _ IH];
    intros HP; simpl in *; auto;
    apply IH; apply Forall_cons in HP as [_ HP]; exact HP.
Qed.

(** The environment logs nothing but what the handler reads and hands over. *)
Lemma env_own a st :
  exists evs, trace (env_step a st) = trace st ++ evs /\ own evs = [].
Proof.
  destruct (env_effect a st) as (_ & _ & [Et | (_ & _ & Et)]).
  - exists []. rewrite Et, app_nil_r. auto.
  - eexists. split; [exact Et | reflexivity].
Qed.

(** If the statements of a program log nothing the handler would, the
    accesses of an execution are its log without the handler's part. *)
Lemma performs_own c l c' :
  performs c l c' -> Forall driver_only (fst c) ->
  exists evs, trace (snd c') = trace (snd c) ++ evs /\ own evs = l.
Proof.
  induction 1 as [c | f k st l c _ IH | cond k st l c Hc _ IH | a k st l c _ IH];
    intros HP; simpl in *.
  - exists []. rewrite app_nil_r. auto.
  - apply Forall_cons in HP as [Hf HP]. destruct (Hf st) as (E & E1 & E2).
    destruct (IH HP) as (evs & T1 & T2). simpl in T1.
    exists (E ++ evs). split.
    + rewrite T1, E1, app_assoc. reflexivity.
    + rewrite own_app, E2, T2, (added_app st (f st) E E1). reflexivity.
  - apply Forall_cons in HP as [_ HP]. apply IH. exact HP.
  - destruct (IH HP) as (evs & T1 & T2). simpl in T1.
    destruct (env_own a st) as (evs0 & T0 & O0).
    exists (evs0 ++ evs). split.
    + rewrite T1, T0, app_assoc. reflexivity.
    + rewrite own_app, O0, T2. reflexivity.
Qed.

Lemma uart_init_ops_driver_only clk cfg baudrate :
  Forall driver_only (uart_init_ops clk cfg baudrate).
Proof.
  unfold uart_init_ops, reset_ops, pinmux_ops, config_ops, arm_ops.
  destruct cfg; simpl;
    repeat (apply Forall_cons; split); try apply Forall_nil;
    cbn [driver_only]; try exact I; intros st;
    unfold CTRLA_bit_ENABLE, CTRLA_bit_SWRST;
    try (eexists; split; [apply write_CTRLA_effect | reflexivity]);
    munfold; msimpl; try (eexists; split; reflexivity).
  rewrite <- app_assoc. eexists; split; reflexivity.
Qed.

(** Every execution of [uart_init] can be carried on to the end. *)
Lemma uart_init_completes clk cfg baudrate st0 l k st :
  performs (uart_init_ops clk cfg baudrate, st0) l (k, st) ->
  exists l' st', performs (k, st) l' ([], st').
Proof.
  intros H.
  set (n := (hw_delay st + sync_swrst st + sync_enable st + sync_ctrlb st)%nat).
  assert (Hw : within n st) by (unfold within, n; lia).
  pose proof (performs_rest (terminating n) _ _ _ H
                (uart_init_ops_terminating n clk cfg baudrate)) as Hk.
  simpl in Hk.
  destruct (run_terminates n n k (le_n n) Hk st Hw) as (st' & E & _).
  apply run_steps in E. apply steps_performs in E as (l' & E).
  exists l', st'. exact E.
Qed.

Lemma uart_init_accesses_spare_data clk cfg baudrate c :
  existsb touches_data (uart_init_accesses clk cfg baudrate c) = false.
Proof. destruct cfg; reflexivity. Qed.

(** X12: Take any execution of [uart_init], from any entry state, with the
    hardware moving and the handler entered at any point in between, and
    the accesses its own statements have made so far.  They are the
    beginning of one fixed list: ENABLE is cleared, the reset is requested,
    the pins are attached if asked, both clocks are requested, then CTRLA,
    BAUD and CTRLB are written, the receive interrupt is unmasked, the line
    is enabled, and ENABLE is set last; when [uart_init] is done they are
    the whole list.  None of them reads or writes DATA or calls the
    callback. *)
Theorem uart_init_accesses_in_order
    (clk baudrate : Z) (cfg : bool) (st0 st : machine) (k : list op) (l : list event) :
  performs (uart_init_ops clk cfg baudrate, st0) l (k, st) ->
  (exists rest,
     uart_init_accesses clk cfg baudrate (regs st0 CTRLA) = l ++ rest /\
     (k = [] -> rest = [])) /\
  existsb touches_data l = false.
Proof.
  intros H.
  assert (A : forall l1 st1,
    performs (uart_init_ops clk cfg baudrate, st0) l1 ([], st1) ->
    l1 = uart_init_accesses clk cfg baudrate (regs st0 CTRLA)).
  { intros l1 st1 H1.
    destruct (performs_own _ _ _ H1 (uart_init_ops_driver_only clk cfg baudrate))
      as (evs & T1 & T2).
    destruct (init_log_complete clk baudrate cfg st0 st1 (performs_steps _ _ _ H1))
      as (evs' & T1' & T2').
    simpl in T1. rewrite T1 in T1'. apply app_inv_head in T1'. subst evs'.
    congruence. }
  destruct (uart_init_completes _ _ _ _ _ _ _ H) as (l' & st' & H').
  pose proof (A _ _ (performs_trans _ _ _ H _ _ H')) as E.
  split.
  - exists l'. split; [symmetry; exact E |].
    intros ->. apply A in H. rewrite <- H in E.
    rewrite <- (app_nil_r l) in E at 2. apply app_inv_head in E. exact E.
  - pose proof (uart_init_accesses_spare_data clk cfg baudrate (regs st0 CTRLA)) as D.
    rewrite <- E, existsb_app in D. apply orb_false_elim in D as [D _]. exact D.
Qed.

Lemma uart_init_accesses_in_order_witness :
  exists l,
    performs (uart_init_ops 48000000 true 115200, power_on 1) l ([], initialised) /\
    l = uart_init_accesses 48000000 true 115200 (regs (power_on 1) CTRLA).
Proof.
  assert (S : steps (uart_init_ops 48000000 true 115200, power_on 1) ([], initialised))
    by (apply (uart_init_steps 1); vm_compute; reflexivity).
  destruct (steps_performs _ _ S) as (l & P).
  exists l. split; [exact P |].
  destruct (uart_init_accesses_in_order 48000000 115200 true (power_on 1) initialised
              [] l P) as ((rest & E & R) & _).
  rewrite (R eq_refl), app_nil_r in E. symmetry. exact E.
Defined.

(** ** Releasing the pins of a running peripheral *)



